(** * Frequency-domain analysis of large datasets: a shallow embedding

    The notebook [PM_01_Frequency-Domain_Analysis_of_Large_Datasets.ipynb]
    is a sequence of calls into xarray, dask, xrft, gcsfs and rechunker.
    This development embeds the notebook's own cells (the [bands] table,
    [take_power_spectrum], [mask], [clear_targets], the rechunk call and
    the read-back) over a small model of the library operations they use.

    Conventions.
    - A floating-point sample is an exact rational [Q]; the IEEE "not a
      number" marker of a missing sample is [None].  Rounding is not
      modelled: every statement below is about which samples are selected,
      averaged, masked or copied, not about the last bit of a mean.
    - An array is its shape together with its indexing function; only
      indices inside the shape are meaningful.
    - A Python exception is a [Raise] in the [result] monad. *)

From Stdlib Require Import QArith Lqa.
From stdpp Require Import gmap strings list.

(** ** Exceptions and the result monad *)

Inductive exn : Type :=
  | IndexError            (* positional index outside of the axis *)
  | FileNotFoundError     (* [gcs.rm] of an object that does not exist *)
  | CoarsenBoundaryError  (* [coarsen(..., boundary='exact')], axis not a multiple of the window *)
  | BroadcastError        (* operands whose unlabelled dimensions differ in size *)
  | TransformPreconditionError (* spectral transform on a chunked axis or on undefined samples *)
  | ConfigurationError    (* rechunk: memory budget too small for the chunk geometry *)
  | ArrayNotFoundError    (* [from_zarr] on a store without array metadata *)
  | ContainsArrayError.   (* creating an array in a store that already holds array metadata *)

Inductive result (A : Type) : Type :=
  | Ok (a : A)
  | Raise (e : exn).
Arguments Ok {A} a.
Arguments Raise {A} e.

#[global] Instance result_ret : MRet result := λ A a, Ok a.
#[global] Instance result_bind : MBind result := λ A B f r,
  match r with
  | Ok a => f a
  | Raise e => Raise e
  end.

(** ** Samples and reductions *)

(** A sample of a float array: [None] is NaN. *)
Definition sample : Type := option Q.

Definition Qlt_bool (x y : Q) : bool := negb (Qle_bool y x).

Definition Qsum (l : list Q) : Q := foldr Qplus 0%Q l.

(** [numpy.mean]: the sum over the count; the mean of an empty selection is NaN. *)
Definition mean (l : list Q) : sample :=
  match l with
  | [] => None
  | _ => Some (Qsum l / inject_Z (Z.of_nat (length l)))%Q
  end.

(** The samples that are not NaN. *)
Definition present (l : list sample) : list Q := omap id l.

(** xarray's [mean] on a float array ([skipna] defaults to true there):
    the unweighted mean of the samples that are not NaN. *)
Definition nanmean (l : list sample) : sample := mean (present l).

(** [mean] on an integer array: the exact mean, as a float. *)
Definition mean_int (l : list Z) : sample := mean (inject_Z <$> l).

(** ** Arrays *)

(** A two-dimensional field over (nlat, nlon). *)
Record DataArray2 (A : Type) : Type := mkDataArray2 {
  nlat : nat;
  nlon : nat;
  at2 : nat → nat → A
}.
Arguments mkDataArray2 {A} _ _ _.
Arguments nlat {A} _.
Arguments nlon {A} _.
Arguments at2 {A} _ _ _.

(** A time series of fields over (time, nlat, nlon), as dask holds it: the
    time axis is cut into blocks of the sizes [time_chunks]. *)
Record TimeArray : Type := mkTimeArray {
  ntime : nat;
  time_chunks : list nat;
  t_nlat : nat;
  t_nlon : nat;
  at_time : nat → nat → nat → sample
}.

(** A spectral array over (freq_time, nlat, nlon): [freq_time] is the
    coordinate of the frequency axis, in cycles per day. *)
Record Spectrum (A : Type) : Type := mkSpectrum {
  freq_time : list Q;
  s_nlat : nat;
  s_nlon : nat;
  at_freq : nat → nat → nat → A
}.
Arguments mkSpectrum {A} _ _ _ _.
Arguments freq_time {A} _.
Arguments s_nlat {A} _.
Arguments s_nlon {A} _.
Arguments at_freq {A} _ _ _ _.

(** ** The xarray operations the notebook calls *)

Module xr.

Definition map2 {A B} (f : A → B) (m : DataArray2 A) : DataArray2 B :=
  mkDataArray2 (nlat m) (nlon m) (λ i j, f (at2 m i j)).

(** [da[0]] on the leading (time) axis. *)
Definition isel_time0 (da : TimeArray) : result (DataArray2 sample) :=
  if decide (0 < ntime da)
  then Ok (mkDataArray2 (t_nlat da) (t_nlon da) (at_time da 0))
  else Raise IndexError.

Definition notnull (m : DataArray2 sample) : DataArray2 bool :=
  map2 (λ v, match v with Some _ => true | None => false end) m.

Definition astype_int (m : DataArray2 bool) : DataArray2 Z := map2 Z.b2z m.

(** The samples of the coarsening window of cell (I, J): [w1] rows by
    [w2] columns of the fine grid. *)
Definition window {A} (w1 w2 : nat) (f : nat → nat → A) (I J : nat) : list A :=
  di ← seq 0 w1; dj ← seq 0 w2; [f (I * w1 + di) (J * w2 + dj)].

(** [boundary='exact'] (the default): the axis must be a multiple of the window. *)
Definition exact (w n : nat) : bool :=
  bool_decide (w ≠ 0 ∧ n `mod` w = 0).

(** [m.coarsen(nlat=w1, nlon=w2).<reduce>()]. *)
Definition coarsen2 {A B} (w1 w2 : nat) (reduce : list A → B)
    (m : DataArray2 A) : result (DataArray2 B) :=
  if exact w1 (nlat m) && exact w2 (nlon m)
  then Ok (mkDataArray2 (nlat m `div` w1) (nlon m `div` w2)
             (λ I J, reduce (window w1 w2 (at2 m) I J)))
  else Raise CoarsenBoundaryError.

(** The same on a spectral array: every frequency bin is coarsened alike. *)
Definition coarsen3 {A B} (w1 w2 : nat) (reduce : list A → B)
    (s : Spectrum A) : result (Spectrum B) :=
  if exact w1 (s_nlat s) && exact w2 (s_nlon s)
  then Ok (mkSpectrum (freq_time s) (s_nlat s `div` w1) (s_nlon s `div` w2)
             (λ k I J, reduce (window w1 w2 (at_freq s k) I J)))
  else Raise CoarsenBoundaryError.

(** [m > thr]: a comparison with NaN is false. *)
Definition gt (thr : Q) (m : DataArray2 sample) : DataArray2 bool :=
  map2 (λ v, match v with Some q => Qlt_bool thr q | None => false end) m.

(** The length of [range(n)[start:stop]] for non-negative bounds. *)
Definition slice_len (start stop n : nat) : nat :=
  stop `min` n - start `min` n.

(** [m.isel(nlat=slice(a1, b1), nlon=slice(a2, b2))]: positional, clipped. *)
Definition isel2 {A} (lat lon : nat * nat) (m : DataArray2 A) : DataArray2 A :=
  mkDataArray2 (slice_len lat.1 lat.2 (nlat m)) (slice_len lon.1 lon.2 (nlon m))
    (λ i j, at2 m (lat.1 + i) (lon.1 + j)).

Definition isel3 {A} (lat lon : nat * nat) (s : Spectrum A) : Spectrum A :=
  mkSpectrum (freq_time s)
    (slice_len lat.1 lat.2 (s_nlat s)) (slice_len lon.1 lon.2 (s_nlon s))
    (λ k i j, at_freq s k (lat.1 + i) (lon.1 + j)).

(** [s.where(cond)]: keep the sample where [cond] holds, NaN elsewhere;
    [cond] is broadcast along the frequency axis. *)
Definition where_ (s : Spectrum sample) (cond : DataArray2 bool)
    : result (Spectrum sample) :=
  if bool_decide (s_nlat s = nlat cond ∧ s_nlon s = nlon cond)
  then Ok (mkSpectrum (freq_time s) (s_nlat s) (s_nlon s)
             (λ k i j, if at2 cond i j then at_freq s k i j else None))
  else Raise BroadcastError.

End xr.

(** ** Cell 32 and cell 39: the region and the validity mask *)

(** [region = dict(nlat=slice(290, 380), nlon=slice(50, 220))] *)
Definition region_nlat : nat * nat := (290, 380).
Definition region_nlon : nat * nat := (50, 220).

(** [mask = (ds_orig.SST[0].notnull().astype(int).coarsen(nlon=5, nlat=5).mean() > 0.2).isel( **region).load()] *)
Definition mask (SST : TimeArray) : result (DataArray2 bool) :=
  snapshot ← xr.isel_time0 SST;
  fraction ← xr.coarsen2 5 5 mean_int (xr.astype_int (xr.notnull snapshot));
  mret (xr.isel2 region_nlat region_nlon (xr.gt 0.2 fraction)).

(** [T_power_spectrum_NAtl = T_power_spectrum_NAtl.where(mask)] *)
Definition remask (T_power_spectrum_NAtl : Spectrum sample) (SST : TimeArray)
    : result (Spectrum sample) :=
  m ← mask SST;
  xr.where_ T_power_spectrum_NAtl m.

(** The fraction of non-missing source samples of the coarsened cell
    (I, J), counted directly: the yardstick the mask is compared with. *)
Definition nonmissing_count (snapshot : nat → nat → sample) (I J : nat) : nat :=
  length (filter (λ v : sample, is_Some v) (xr.window 5 5 snapshot I J)).

Definition nonmissing_fraction (snapshot : nat → nat → sample) (I J : nat) : Q :=
  (inject_Z (Z.of_nat (nonmissing_count snapshot I J)) / 25)%Q.

(** Two evaluations of [mask] agree: the same exception, or masks of the
    same shape with the same validity in every cell. *)
Definition same_mask (r r' : result (DataArray2 bool)) : Prop :=
  match r, r' with
  | Ok m, Ok m' => nlat m = nlat m' ∧ nlon m = nlon m' ∧ ∀ i j, at2 m i j = at2 m' i j
  | Raise e, Raise e' => e = e'
  | _, _ => False
  end.

(** ** Label-based selection along the frequency axis *)

(** Python's [slice(start, stop)]; [None] is an absent bound. *)
Record slice : Type := Slice { start : option Q; stop : option Q }.

Module pd.

(** The number of leading labels that satisfy [p]. *)
Fixpoint leading (p : Q → bool) (labels : list Q) : nat :=
  match labels with
  | [] => 0
  | x :: rest => if p x then S (leading p rest) else 0
  end.

(** [searchsorted] on an ascending axis: the insertion point of [v] is
    the number of labels below it (side 'left'), or not above it (side
    'right'). *)
Definition searchsorted_left (labels : list Q) (v : Q) : nat :=
  leading (λ x, Qlt_bool x v) labels.
Definition searchsorted_right (labels : list Q) (v : Q) : nat :=
  leading (λ x, Qle_bool x v) labels.

(** [Index.slice_indexer]: the positional range [i0:i1] selected by a
    label slice.  The start bound is searched from the left and the stop
    bound from the right, so a label equal to either bound is selected. *)
Definition slice_indexer (labels : list Q) (s : slice) : nat * nat :=
  (match start s with Some a => searchsorted_left labels a | None => 0 end,
   match stop s with Some b => searchsorted_right labels b | None => length labels end).

(** [is_monotonic_increasing] *)
Fixpoint is_monotonic_increasing (labels : list Q) : bool :=
  match labels with
  | x :: (y :: _) as rest => Qle_bool x y && is_monotonic_increasing rest
  | _ => true
  end.

End pd.

(** [T.sel(freq_time=s)]: the positional range [i0:i1] of the frequency
    axis, which xrft produces in ascending order. *)
Definition sel_freq_time {A} (s : slice) (T : Spectrum A) : Spectrum A :=
  let '(i0, i1) := pd.slice_indexer (freq_time T) s in
  mkSpectrum (take (i1 - i0) (drop i0 (freq_time T))) (s_nlat T) (s_nlon T)
    (λ k i j, at_freq T (i0 + k) i j).

(** The samples along the frequency axis at the spatial point (i, j). *)
Definition column {A} (T : Spectrum A) (i j : nat) : list A :=
  (λ k, at_freq T k i j) <$> seq 0 (length (freq_time T)).

(** [T.mean('freq_time')] *)
Definition mean_freq_time (T : Spectrum sample) : DataArray2 sample :=
  mkDataArray2 (s_nlat T) (s_nlon T) (λ i j, nanmean (column T i j)).

(** ** Cell 46 and cell 47: the frequency bands and their averages *)

Definition bands : list (string * slice) :=
  [ ("> 1 year",           Slice (Some (1 / 3650)%Q) (Some (1 / 400)%Q));
    ("~ 1 year",           Slice (Some (1 / 370)%Q)  (Some (1 / 360)%Q));
    ("100 days - 1 year",  Slice (Some (1 / 360)%Q)  (Some (1 / 100)%Q));
    ("10 days - 100 days", Slice (Some (1 / 100)%Q)  (Some (1 / 10)%Q));
    ("< 10 days",          Slice (Some (1 / 10)%Q)   None) ].

(** [T_power_spectrum_NAtl.sel(freq_time=band_slice).mean('freq_time')] *)
Definition band_average (band_slice : slice) (T : Spectrum sample) : DataArray2 sample :=
  mean_freq_time (sel_freq_time band_slice T).

(** Membership of a frequency in a band, with both bounds included ... *)
Definition in_closed (s : slice) (f : Q) : bool :=
  match start s with Some a => Qle_bool a f | None => true end
  && match stop s with Some b => Qle_bool f b | None => true end.

(** ... and with the stop bound excluded (a half-open interval). *)
Definition in_half_open (s : slice) (f : Q) : bool :=
  match start s with Some a => Qle_bool a f | None => true end
  && match stop s with Some b => Qlt_bool f b | None => true end.

(** The bins of a spectral array at a spatial point: frequency and sample. *)
Definition bins {A} (T : Spectrum A) (i j : nat) : list (Q * A) :=
  zip (freq_time T) (column T i j).

(** ** Cell 28 and cell 30: the power spectrum *)

(** A complex sample: real and imaginary part. *)
Definition complex : Type := (Q * Q)%type.
Definition re (z : complex) : Q := z.1.
Definition im (z : complex) : Q := z.2.

(** The squared magnitude, the power spectrum as the notebook's text defines it. *)
Definition abs2 (z : complex) : Q := (re z * re z + im z * im z)%Q.

(** [var.chunk({'time': None})]: the time axis becomes one block ("there
    can be no chunking in the time dimension"). *)
Definition chunk_time_None (var : TimeArray) : TimeArray :=
  mkTimeArray (ntime var) [ntime var] (t_nlat var) (t_nlon var) (at_time var).

(** [var.fillna(v)] *)
Definition fillna (v : Q) (var : TimeArray) : TimeArray :=
  mkTimeArray (ntime var) (time_chunks var) (t_nlat var) (t_nlon var)
    (λ t i j, match at_time var t i j with
              | Some x => Some x
              | None => Some v
              end).

(** No sample inside the shape is NaN. *)
Definition all_defined (var : TimeArray) : bool :=
  forallb (λ t,
    forallb (λ i,
      forallb (λ j, match at_time var t i j with Some _ => true | None => false end)
        (seq 0 (t_nlon var)))
      (seq 0 (t_nlat var)))
    (seq 0 (ntime var)).

(** [T.real] *)
Definition real (T : Spectrum complex) : Spectrum sample :=
  mkSpectrum (freq_time T) (s_nlat T) (s_nlon T) (λ k i j, Some (re (at_freq T k i j))).

Section spectral.

(** The numerical transform of xrft (detrend, window, Fourier transform
    along the time axis) is not part of the notebook: it is a parameter,
    taking the [real], [detrend] and [window] arguments and the array. *)
Variable xrft_transform : string → string → bool → TimeArray → Spectrum complex.

(** Modelled from the spec: the precondition of [xrft.power_spectrum],
    whose code is outside the notebook.  The transform axis must be a
    single, non-chunked block and the input must hold no undefined
    value; otherwise the call fails. *)
Definition xrft_power_spectrum (var : TimeArray) (dim real_arg detrend : string)
    (window : bool) : result (Spectrum complex) :=
  if bool_decide (time_chunks var = [ntime var]) && all_defined var
  then Ok (xrft_transform real_arg detrend window var)
  else Raise TransformPreconditionError.

(** [def take_power_spectrum(var, real_arg)] *)
Definition take_power_spectrum (var : TimeArray) (real_arg : string)
    : result (Spectrum complex) :=
  let var := chunk_time_None var in
  let var_filled := fillna 0 var in
  var_hat ← xrft_power_spectrum var_filled "time" real_arg "linear" true;
  mret var_hat.

(** [T_calc_power_spectrum = take_power_spectrum(Txr_rechunked, 'time')] *)
Definition T_calc_power_spectrum (Txr_rechunked : TimeArray) : result (Spectrum complex) :=
  take_power_spectrum Txr_rechunked "time".

(** [T_power_spectrum = T_calc_power_spectrum.real.coarsen(nlat=5, nlon=5).mean()] *)
Definition T_power_spectrum (Txr_rechunked : TimeArray) : result (Spectrum sample) :=
  T_calc ← T_calc_power_spectrum Txr_rechunked;
  xr.coarsen3 5 5 nanmean (real T_calc).

(** [T_power_spectrum_NAtl = T_power_spectrum.isel( **region)] *)
Definition T_power_spectrum_region (Txr_rechunked : TimeArray) : result (Spectrum sample) :=
  T ← T_power_spectrum Txr_rechunked;
  mret (xr.isel3 region_nlat region_nlon T).

End spectral.

(** ** Cloud storage, zarr stores and the rechunk step *)

(** The key of an object inside a zarr store: the array metadata
    ['.zarray'], or the chunk with a given chunk index. *)
Inductive zkey : Type :=
  | zarray
  | zchunk (I J K : nat).

#[global] Instance zkey_eq_dec : EqDecision zkey.
Proof. solve_decision. Defined.

#[global] Instance zkey_countable : Countable zkey :=
  inj_countable'
    (λ k, match k with zarray => None | zchunk ci cj ck => Some (ci, cj, ck) end)
    (λ o, match o with None => zarray | Some (ci, cj, ck) => zchunk ci cj ck end)
    (λ k, match k with zarray => eq_refl | zchunk _ _ _ => eq_refl end).

(** Array metadata: shape, chunk shape, and bytes per sample. *)
Record zmeta : Type := mkZmeta {
  z_shape : nat * nat * nat;
  z_chunks : nat * nat * nat;
  z_itemsize : N
}.

(** A stored object: metadata, or the rectangular block of one chunk. *)
Inductive object : Type :=
  | Meta (m : zmeta)
  | Chunk (block : list (list (list sample))).

(** An object of the bucket is named by the root path of its store and its
    key inside the store: [path + '/.zarray'] is [(path, zarray)]. *)
Abbreviation bucket := (gmap (string * zkey) object).

(** A unit of work the rechunk plan hands to the worker pool: the copy of
    one chunk into the store rooted at a path. *)
Record task : Type := mkTask { task_store : string; task_chunk : nat * nat * nat }.

(** What the storage cells act on: the bucket, and the log of the tasks
    dispatched to the worker pool so far. *)
Record cloud : Type := mkCloud {
  objects : bucket;
  dispatched : list task
}.

(** Cells with storage effects: a state and exception monad over [cloud]. *)
Definition io (A : Type) : Type := cloud → result A * cloud.

#[global] Instance io_ret : MRet io := λ A a w, (Ok a, w).
#[global] Instance io_bind : MBind io := λ A B f m w,
  match m w with
  | (Ok a, w') => f a w'
  | (Raise e, w') => (Raise e, w')
  end.

(** [try: body except FileNotFoundError: pass] *)
Definition try_except_FileNotFoundError (body : io ()) : io () := λ w,
  match body w with
  | (Raise FileNotFoundError, w') => (Ok (), w')
  | r => r
  end.

(** [for x in xs: body(x)] *)
Fixpoint for_each {A} (xs : list A) (body : A → io ()) : io () :=
  match xs with
  | [] => mret ()
  | x :: rest => body x ≫= λ _, for_each rest body
  end.

Module gcs.

(** [gcs.rm(name)]: delete one object; a missing object is FileNotFoundError. *)
Definition rm (name : string * zkey) : io () := λ w,
  match objects w !! name with
  | Some _ => (Ok (), mkCloud (delete name (objects w)) (dispatched w))
  | None => (Raise FileNotFoundError, w)
  end.

End gcs.

(** The paths of cell 14; [scratch_path] is the environment variable
    PANGEO_SCRATCH. *)
Definition varname : string := "SST".
Definition tmp_path (scratch_path : string) : string :=
  scratch_path +:+ "/CESM_POP_hires_control/" +:+ varname +:+ "_tmp.zarr".
Definition target_path : string :=
  "paigem-pangeo/CESM_POP_hires_control/" +:+ varname +:+ "_target.zarr".

(** [max_mem = '1GB'], in bytes, and [target_chunks = (365*5, 90, 180)]. *)
Definition max_mem : N := 1000000000.
Definition target_chunks : nat * nat * nat := (365 * 5, 90, 180).

(** The path cell 24 reads the rechunked data from. *)
Definition target_path_read : string :=
  "pangeo-paigem/CESM_POP_hires_control/" +:+ varname +:+ "_target.zarr".

(** [def clear_targets()] *)
Definition clear_targets (scratch_path : string) : io () :=
  for_each [tmp_path scratch_path; target_path]
    (λ path, try_except_FileNotFoundError (gcs.rm (path, zarray))).

(** An array as a handle presents it: shape, chunk shape, bytes per sample
    and the sample at each index. *)
Record array3 : Type := mkArray3 {
  shape : nat * nat * nat;
  chunks : nat * nat * nat;
  itemsize : N;
  elements : nat → nat → nat → sample
}.

Definition inside (sh : nat * nat * nat) (t y x : nat) : bool :=
  (t <? sh.1.1) && (y <? sh.1.2) && (x <? sh.2).

Definition positive_extents (c : nat * nat * nat) : Prop :=
  0 < c.1.1 ∧ 0 < c.1.2 ∧ 0 < c.2.

Module zarr.

(** The number of chunks along an axis of extent [n] cut into blocks of [c]. *)
Definition nchunks (n c : nat) : nat := (n + c - 1) `div` c.

(** The chunk indices of an array: they tile every axis. *)
Definition grid (sh c : nat * nat * nat) : list (nat * nat * nat) :=
  I ← seq 0 (nchunks sh.1.1 c.1.1);
  J ← seq 0 (nchunks sh.1.2 c.1.2);
  K ← seq 0 (nchunks sh.2 c.2);
  [(I, J, K)].

(** The block of chunk (I, J, K): a full chunk, padded with the fill value
    NaN beyond the edge of the array. *)
Definition block (sh c : nat * nat * nat) (f : nat → nat → nat → sample)
    (I J K : nat) : list (list (list sample)) :=
  (λ a, (λ b, (λ d,
     let '(t, y, x) := (I * c.1.1 + a, J * c.1.2 + b, K * c.2 + d) in
     if inside sh t y x then f t y x else None)
    <$> seq 0 c.2) <$> seq 0 c.1.2) <$> seq 0 c.1.1.

Definition block_get (blk : list (list (list sample))) (a b d : nat) : sample :=
  match blk !! a with
  | Some plane =>
      match plane !! b with
      | Some row => default None (row !! d)
      | None => None
      end
  | None => None
  end.

Definition write_chunk (path : string) (sh c : nat * nat * nat)
    (f : nat → nat → nat → sample) (idx : nat * nat * nat) (m : bucket) : bucket :=
  <[(path, zchunk idx.1.1 idx.1.2 idx.2) := Chunk (block sh c f idx.1.1 idx.1.2 idx.2)]> m.

(** Create the array at [path] and write all of its chunks. *)
Definition write (path : string) (meta : zmeta) (f : nat → nat → nat → sample)
    (m : bucket) : bucket :=
  <[(path, zarray) := Meta meta]>
    (foldr (write_chunk path (z_shape meta) (z_chunks meta) f) m
       (grid (z_shape meta) (z_chunks meta))).

(** Read one sample through the chunk that holds it; a chunk that is not
    stored reads as the fill value. *)
Definition read (m : bucket) (path : string) (c : nat * nat * nat) (t y x : nat) : sample :=
  match m !! (path, zchunk (t `div` c.1.1) (y `div` c.1.2) (x `div` c.2)) with
  | Some (Chunk blk) => block_get blk (t `mod` c.1.1) (y `mod` c.1.2) (x `mod` c.2)
  | _ => None
  end.

(** The store rooted at [path] already holds array metadata. *)
Definition contains_array (m : bucket) (path : string) : bool :=
  bool_decide (is_Some (m !! (path, zarray))).

End zarr.

Module dsa.

(** [dsa.from_zarr(gcs.get_mapper(path))] *)
Definition from_zarr (path : string) (m : bucket) : result array3 :=
  match m !! (path, zarray) with
  | Some (Meta meta) =>
      Ok (mkArray3 (z_shape meta) (z_chunks meta) (z_itemsize meta)
            (λ t y x, if inside (z_shape meta) t y x
                      then zarr.read m path (z_chunks meta) t y x
                      else None))
  | _ => Raise ArrayNotFoundError
  end.

End dsa.

Module rechunker.

(** The byte size of one chunk. *)
Definition chunk_bytes (c : nat * nat * nat) (itemsize : N) : N :=
  (N.of_nat c.1.1 * N.of_nat c.1.2 * N.of_nat c.2 * itemsize)%N.

(** The deferred plan: what to copy, through which intermediate layout,
    into which stores. *)
Record plan : Type := mkPlan {
  source : array3;
  int_chunks : nat * nat * nat;
  write_chunks : nat * nat * nat;
  temp_store : string;
  target_store : string
}.

Section contract.

(** The working memory a task needs besides the chunk it holds. *)
Variable working_overhead : N.

(** Modelled from the spec: the rechunk operation of the rechunker
    library, whose code is outside the notebook.  The memory budget must
    exceed the byte size of one target chunk plus working overhead, or the
    operation fails with a configuration error; otherwise it returns a
    deferred plan, constructed without side effects.  The intermediate
    layout, which exists to bound peak memory, is taken per axis as the
    smaller of the source and target extents. *)
Definition rechunk (src : array3) (target_chunks : nat * nat * nat) (max_mem : N)
    (store_target temp_store : string) : result plan :=
  if decide (chunk_bytes target_chunks (itemsize src) + working_overhead < max_mem)%N
  then Ok (mkPlan src
             ((chunks src).1.1 `min` target_chunks.1.1,
              (chunks src).1.2 `min` target_chunks.1.2,
              (chunks src).2 `min` target_chunks.2)
             target_chunks temp_store store_target)
  else Raise ConfigurationError.

End contract.

(** The tasks of one pass: one per chunk of the store written. *)
Definition pass_tasks (store : string) (sh c : nat * nat * nat) : list task :=
  mkTask store <$> zarr.grid sh c.

(** The metadata of the arrays the plan creates. *)
Definition target_meta (r : plan) : zmeta :=
  mkZmeta (shape (source r)) (write_chunks r) (itemsize (source r)).
Definition temp_meta (r : plan) : zmeta :=
  mkZmeta (shape (source r)) (int_chunks r) (itemsize (source r)).

(** Modelled from the spec: executing the plan.  A store that already
    holds array metadata is never overwritten: the target array is created
    first and the staging array second, and where metadata is found the
    operation fails, so a re-run needs the metadata cleared beforehand.
    Chunk objects are written without such a check.  Then the tasks are
    dispatched to the worker pool: the source is rewritten into the
    staging store in the intermediate layout, and the staging store is
    rewritten into the target store in the target layout.  Worker
    failures and retries are not modelled: every dispatched task
    completes. *)
Definition execute (r : plan) (retries : nat) : io () := λ w,
  if zarr.contains_array (objects w) (target_store r)
  then (Raise ContainsArrayError, w)
  else
    let created := <[(target_store r, zarray) := Meta (target_meta r)]> (objects w) in
    if zarr.contains_array created (temp_store r)
    then (Raise ContainsArrayError, mkCloud created (dispatched w))
    else
      let staged :=
        zarr.write (temp_store r) (temp_meta r) (elements (source r)) created in
      let written :=
        zarr.write (target_store r) (target_meta r)
          (zarr.read staged (temp_store r) (int_chunks r)) staged in
      (Ok (), mkCloud written
                (dispatched w
                 ++ pass_tasks (temp_store r) (shape (source r)) (int_chunks r)
                 ++ pass_tasks (target_store r) (shape (source r)) (write_chunks r))).

End rechunker.

Section rechunk_cells.

Variable working_overhead : N.

(** Cells 17 and 20:
    [r = rechunk(array, target_chunks, max_mem, store_target, temp_store=store_tmp, executor='dask')]
    and [r.execute(retries=10)], for a given source array, chunk shape,
    budget and pair of paths. *)
Definition rechunk_and_execute (array : array3) (target_chunks : nat * nat * nat)
    (max_mem : N) (target_path tmp_path : string) : io () := λ w,
  match rechunker.rechunk working_overhead array target_chunks max_mem
          target_path tmp_path with
  | Ok r => rechunker.execute r 10 w
  | Raise e => (Raise e, w)
  end.

End rechunk_cells.

(** Reading the store at [path] back gives the source array in the chunk
    layout [layout]: the same shape and sample size, and the same sample
    at every index inside the shape. *)
Definition reads_back (src : array3) (layout : nat * nat * nat) (path : string)
    (w : cloud) : Prop :=
  ∃ back,
    dsa.from_zarr path (objects w) = Ok back ∧
    shape back = shape src ∧
    chunks back = layout ∧
    itemsize back = itemsize src ∧
    ∀ t y x, inside (shape src) t y x = true → elements back t y x = elements src t y x.

(** ** Sample inputs *)

(** A two-day source array on the 2400 x 3600 grid: on day 0 a sample is
    present in the first 1451 rows and in the first 300 columns, and
    missing elsewhere; day 1 is missing everywhere. *)
Definition SST_sample : TimeArray :=
  mkTimeArray 2 [1; 1] 2400 3600
    (λ t i j, match t with
              | 0 => if (i <? 1451) || (j <? 300) then Some 15%Q else None
              | _ => None
              end).

(** The same day 0, with day 1 present everywhere. *)
Definition SST_sample_later : TimeArray :=
  mkTimeArray 2 [1; 1] 2400 3600
    (λ t i j, match t with
              | 0 => if (i <? 1451) || (j <? 300) then Some 15%Q else None
              | _ => Some 3%Q
              end).

(** A small two-day series on a 10 x 10 grid, in two time chunks: day 0 is
    15 in the upper half and missing in the lower half, day 1 is 3. *)
Definition Txr_sample : TimeArray :=
  mkTimeArray 2 [1; 1] 10 10
    (λ t i j, match t with
              | 0 => if i <? 5 then Some 15%Q else None
              | _ => Some 3%Q
              end).

(** A spectral array over the region: the first four frequency bins of a
    twenty-day daily series (0, 1/20, 2/20 and 3/20 cycles per day). *)
Definition T_sample : Spectrum sample :=
  mkSpectrum [0; 1 / 20; 1 / 10; 3 / 20]%Q 90 170
    (λ k i j, Some (inject_Z (Z.of_nat (k + i + j)))).

(** A stand-in for the transform on two-day series: the two-point discrete
    Fourier transform of each point's series (sum and difference). *)
Definition two_point_transform (real_arg detrend : string) (window : bool)
    (var : TimeArray) : Spectrum complex :=
  mkSpectrum [0; 1 / 2]%Q (t_nlat var) (t_nlon var)
    (λ k i j, match at_time var 0 i j, at_time var 1 i j with
              | Some a, Some b => match k with
                                  | 0 => (a + b, 0)%Q
                                  | _ => (a - b, 0)%Q
                                  end
              | _, _ => (0, 0)%Q
              end).

(** A small source array: four daily fields of 2 x 3 samples, one chunk per
    day, four bytes per sample, with one missing sample. *)
Definition array_sample : array3 :=
  mkArray3 (4, 2, 3) (1, 2, 3) 4
    (λ t y x, if (t =? 2) && (y =? 1) && (x =? 0) then None
              else Some (inject_Z (Z.of_nat (100 * t + 10 * y + x)))).

(** A bucket that holds only a stale array metadata object at the target path. *)
Definition cloud_stale : cloud :=
  mkCloud {[ (target_path, zarray) := Meta (mkZmeta (1, 1, 1) (1, 1, 1) 4) ]} [].

(** What a failed earlier run left at the target path: array metadata and
    one chunk. *)
Definition cloud_partial : cloud :=
  mkCloud {[ (target_path, zarray) := Meta (mkZmeta (4, 2, 3) (3, 1, 2) 4);
             (target_path, zchunk 0 0 0) := Chunk [[[Some 99%Q]]] ]} [].

(** An empty bucket. *)
Definition cloud_empty : cloud := mkCloud ∅ [].

(** ** Further cells of the notebook *)

(** Cell 10: [ds_orig.SST[0].coarsen(nlat=5, nlon=5).mean()], the
    coarsened snapshot that is plotted. *)
Definition coarsened_snapshot (SST : TimeArray) : result (DataArray2 sample) :=
  snapshot ← xr.isel_time0 SST;
  xr.coarsen2 5 5 nanmean snapshot.

(** The samples of frequency bin [k] over the whole spatial field. *)
Definition cells {A} (T : Spectrum A) (k : nat) : list A :=
  i ← seq 0 (s_nlat T); j ← seq 0 (s_nlon T); [at_freq T k i j].

(** Cell 44: [T_power_spectrum_NAtl.mean(dim=('nlon', 'nlat'))], one
    area average per frequency bin. *)
Definition mean_nlon_nlat (T : Spectrum sample) : list sample :=
  (λ k, nanmean (cells T k)) <$> seq 0 (length (freq_time T)).

(** The names of the bands of the table that contain a frequency. *)
Definition bands_containing (f : Q) : list string :=
  (filter (λ band : string * slice, in_closed band.2 f) bands).*1.

Section workflow.

Variable xrft_transform : string → string → bool → TimeArray → Spectrum complex.

(** Cells 30, 32 and 39 in sequence: the power spectrum of the rechunked
    series, restricted to the region and re-masked with the source array. *)
Definition T_power_spectrum_masked (Txr_rechunked SST : TimeArray)
    : result (Spectrum sample) :=
  T ← T_power_spectrum_region xrft_transform Txr_rechunked;
  remask T SST.

End workflow.

(** ** Cell 24 and cell 26: the dask array and its ten-year subset *)

Module da.

(** The blocks dask cuts an axis of extent [n] into when the stored chunk
    extent is [c]: full blocks, then the remainder if there is one; an
    empty axis is one empty block. *)
Definition regular_chunks (n c : nat) : list nat :=
  match n with
  | 0 => [0]
  | _ => replicate (n `div` c) c ++ (if n `mod` c =? 0 then [] else [n `mod` c])
  end.

(** The part of each block, starting at offset [o], that lies in [a:b]. *)
Fixpoint overlaps (a b o : nat) (cs : list nat) : list nat :=
  match cs with
  | [] => []
  | c :: rest => ((o + c) `min` b - o `max` a) :: overlaps a b (o + c) rest
  end.

(** The blocks of [x[a:b]]: the non-empty parts of the blocks of [x]; an
    empty selection is one empty block. *)
Definition slice_chunks (a b : nat) (cs : list nat) : list nat :=
  match filter (λ c, 0 < c) (overlaps a b 0 cs) with
  | [] => [0]
  | l => l
  end.

(** [x[a:b, :, :]] *)
Definition getitem_time (a b : nat) (x : TimeArray) : TimeArray :=
  mkTimeArray (xr.slice_len a b (ntime x)) (slice_chunks a b (time_chunks x))
    (t_nlat x) (t_nlon x) (λ t, at_time x (a + t)).

(** The dask array [dsa.from_zarr] returns, seen along (time, nlat, nlon). *)
Definition of_zarr (arr : array3) : TimeArray :=
  mkTimeArray (shape arr).1.1 (regular_chunks (shape arr).1.1 (chunks arr).1.1)
    (shape arr).1.2 (shape arr).2 (elements arr).

End da.

(** [yr1 = 0], [yr2 = 10] *)
Definition yr1 : nat := 0.
Definition yr2 : nat := 10.

(** [Txr_rechunked = xr.DataArray(T_rechunked[365*yr1:365*yr2,:,:], dims=['time','nlat','nlon'])] *)
Definition Txr_rechunked (T_rechunked : array3) : TimeArray :=
  da.getitem_time (365 * yr1) (365 * yr2) (da.of_zarr T_rechunked).

(** The cells of an [n1] x [n2] field, row by row. *)
Definition field_cells (n1 n2 : nat) : list (nat * nat) :=
  i ← seq 0 n1; j ← seq 0 n2; [(i, j)].

(** * Properties *)

(** ** Reductions *)

Lemma Qlt_bool_iff (x y : Q) : Qlt_bool x y = true ↔ (x < y)%Q.
Proof.
  unfold Qlt_bool. rewrite negb_true_iff, <- not_true_iff_false, Qle_bool_iff.
  split; [apply Qnot_le_lt | apply Qlt_not_le].
Qed.

Lemma window_fmap {A B} (f : A → B) w1 w2 (g : nat → nat → A) I J :
  xr.window w1 w2 (λ i j, f (g i j)) I J = f <$> xr.window w1 w2 g I J.
Proof.
  unfold xr.window. generalize (seq 0 w1) as l1. intros l1.
  induction l1 as [|di l1 IH]; [done|].
  rewrite !bind_cons, fmap_app, IH. f_equal.
  generalize (seq 0 w2) as l2. intros l2.
  induction l2 as [|dj l2 IH2]; [done|].
  rewrite !bind_cons, fmap_app, IH2. done.
Qed.

Lemma window_length {A} w1 w2 (g : nat → nat → A) I J :
  length (xr.window w1 w2 g I J) = w1 * w2.
Proof.
  unfold xr.window.
  assert (Hin : ∀ di (l2 : list nat),
    length (l2 ≫= λ dj, [g (I * w1 + di) (J * w2 + dj)]) = length l2).
  { intros di l2. induction l2 as [|dj l2 IH]; [done|].
    rewrite bind_cons, length_app, IH. done. }
  assert (Hout : ∀ l1 : list nat,
    length (l1 ≫= λ di, seq 0 w2 ≫= λ dj, [g (I * w1 + di) (J * w2 + dj)])
    = length l1 * w2).
  { intros l1. induction l1 as [|di l1 IH]; [done|].
    rewrite bind_cons, length_app, IH, Hin, length_seq. simpl. lia. }
  rewrite Hout, length_seq. done.
Qed.

Lemma mean_nonempty (l : list Q) :
  l ≠ [] → mean l = Some (Qsum l / inject_Z (Z.of_nat (length l)))%Q.
Proof. destruct l; [done|reflexivity]. Qed.

(** The sum of the 0/1 indicators of the present samples is their count. *)
Lemma Qsum_indicator (l : list sample) :
  (Qsum (inject_Z <$>
     (Z.b2z <$> ((λ v : sample, match v with Some _ => true | None => false end) <$> l)))
   == inject_Z (Z.of_nat (length (filter (λ v : sample, is_Some v) l))))%Q.
Proof.
  induction l as [|v l IH]; [reflexivity|].
  rewrite filter_cons. cbn [fmap list_fmap Qsum foldr].
  fold (Qsum (inject_Z <$>
     (Z.b2z <$> ((λ v : sample, match v with Some _ => true | None => false end) <$> l)))).
  rewrite IH. destruct v as [q|].
  - rewrite decide_True by eauto. cbn [length Z.b2z].
    rewrite Nat2Z.inj_succ, <- Z.add_1_l, inject_Z_plus. reflexivity.
  - rewrite decide_False by (intros [? ?]; discriminate). cbn [Z.b2z].
    rewrite Qplus_0_l. reflexivity.
Qed.

(** ** The validity mask *)

(** What [mask] returns on a well-shaped input, cell by cell. *)
Lemma mask_ok (SST : TimeArray) :
  0 < ntime SST → t_nlat SST `mod` 5 = 0 → t_nlon SST `mod` 5 = 0 →
  mask SST = Ok (mkDataArray2
    (xr.slice_len 290 380 (t_nlat SST `div` 5))
    (xr.slice_len 50 220 (t_nlon SST `div` 5))
    (λ i j, match mean_int (xr.window 5 5
                (λ a b, Z.b2z match at_time SST 0 a b with
                              | Some _ => true | None => false end)
                (290 + i) (50 + j)) with
            | Some q => Qlt_bool 0.2 q
            | None => false
            end)).
Proof.
  intros Ht Hlat Hlon. unfold mask, xr.isel_time0.
  rewrite decide_True by done. cbn [mbind result_bind].
  unfold xr.coarsen2, xr.exact. cbn [nlat nlon xr.astype_int xr.notnull xr.map2].
  rewrite !bool_decide_eq_true_2 by (split; [lia | done]).
  reflexivity.
Qed.

(** The mean the mask thresholds is the fraction of non-missing samples. *)
Lemma mask_mean_fraction (snapshot : nat → nat → sample) (I J : nat) :
  ∃ q, mean_int (xr.window 5 5
         (λ a b, Z.b2z match snapshot a b with Some _ => true | None => false end) I J)
       = Some q
     ∧ (q == nonmissing_fraction snapshot I J)%Q.
Proof.
  rewrite (window_fmap (λ v : sample, Z.b2z match v with Some _ => true | None => false end)).
  pose proof (window_length 5 5 snapshot I J) as Hlen.
  unfold mean_int. rewrite mean_nonempty.
  2:{ intros Hnil. apply (f_equal length) in Hnil.
      rewrite !length_fmap, Hlen in Hnil. discriminate. }
  eexists; split; [reflexivity|].
  unfold nonmissing_fraction, nonmissing_count.
  rewrite !length_fmap, Hlen.
  change (inject_Z (Z.of_nat (5 * 5))) with 25%Q.
  rewrite <- (Qsum_indicator (xr.window 5 5 snapshot I J)).
  rewrite <- list_fmap_compose. reflexivity.
Qed.

Lemma window_ext {A} w1 w2 (f g : nat → nat → A) I J :
  (∀ a b, f a b = g a b) → xr.window w1 w2 f I J = xr.window w1 w2 g I J.
Proof.
  intros Hfg. unfold xr.window.
  apply list_bind_ext; [|done]. intros di.
  apply list_bind_ext; [|done]. intros dj.
  by rewrite Hfg.
Qed.

(** C4. Masking: on a well-shaped input the mask is computed, and a
    coarsened cell is valid exactly when its fraction of non-missing source
    samples exceeds 0.2; the masked output keeps the spectral value of a
    valid cell and holds the no-data marker in every other cell, so a cell
    whose fraction is below 0.2 is no-data whatever its spectral value. *)
Theorem masking_threshold (SST : TimeArray) (T_power_spectrum_NAtl : Spectrum sample) :
  0 < ntime SST → t_nlat SST `mod` 5 = 0 → t_nlon SST `mod` 5 = 0 →
  s_nlat T_power_spectrum_NAtl = xr.slice_len 290 380 (t_nlat SST `div` 5) →
  s_nlon T_power_spectrum_NAtl = xr.slice_len 50 220 (t_nlon SST `div` 5) →
  ∃ m out,
    mask SST = Ok m ∧ remask T_power_spectrum_NAtl SST = Ok out ∧
    ∀ i j,
      (at2 m i j = true ↔
       (0.2 < nonmissing_fraction (at_time SST 0) (290 + i) (50 + j))%Q) ∧
      (∀ k, at_freq out k i j =
            if at2 m i j then at_freq T_power_spectrum_NAtl k i j else None) ∧
      ((nonmissing_fraction (at_time SST 0) (290 + i) (50 + j) < 0.2)%Q →
       ∀ k, at_freq out k i j = None).
Proof.
  intros Ht Hlat Hlon Hsl Hsn.
  pose proof (mask_ok SST Ht Hlat Hlon) as Hm.
  eexists _, _. split; [exact Hm|]. split.
  { unfold remask. rewrite Hm. cbn [mbind result_bind]. unfold xr.where_.
    cbn [nlat nlon]. rewrite bool_decide_eq_true_2 by done. reflexivity. }
  intros i j. cbn [at2 at_freq].
  destruct (mask_mean_fraction (at_time SST 0) (290 + i) (50 + j)) as (q & -> & Hq).
  assert (Hiff : Qlt_bool 0.2 q = true ↔
                 (0.2 < nonmissing_fraction (at_time SST 0) (290 + i) (50 + j))%Q).
  { rewrite Qlt_bool_iff, Hq. done. }
  split; [exact Hiff|]. split; [done|].
  intros Hlow k. destruct (Qlt_bool 0.2 q); [|done].
  assert ((0.2 < nonmissing_fraction (at_time SST 0) (290 + i) (50 + j))%Q)
    by (by apply Hiff).
  lra.
Qed.

(** C9. The mask reads the first time snapshot only: two source arrays of
    the same shape that agree at time index 0 get the same mask, whatever
    their samples (and missing-value patterns) at every later time step. *)
Theorem mask_first_snapshot_only (SST SST' : TimeArray) :
  ntime SST = ntime SST' → t_nlat SST = t_nlat SST' → t_nlon SST = t_nlon SST' →
  (∀ i j, at_time SST 0 i j = at_time SST' 0 i j) →
  same_mask (mask SST) (mask SST').
Proof.
  intros Hn Hlat Hlon H0. unfold mask, xr.isel_time0. rewrite <- Hn.
  destruct (decide (0 < ntime SST)); [|reflexivity].
  cbn [mbind result_bind]. unfold xr.coarsen2.
  cbn [nlat nlon xr.astype_int xr.notnull xr.map2]. rewrite <- Hlat, <- Hlon.
  destruct (xr.exact 5 (t_nlat SST) && xr.exact 5 (t_nlon SST)); [|reflexivity].
  cbn [mbind result_bind mret result_ret same_mask].
  split; [done|]. split; [done|]. intros i j. cbn [xr.isel2 xr.gt xr.map2 at2].
  erewrite window_ext; [reflexivity|].
  intros a b. cbn [xr.astype_int xr.notnull xr.map2 at2]. by rewrite H0.
Qed.

Lemma masking_threshold_witness :
  ∃ m out,
    mask SST_sample = Ok m ∧ remask T_sample SST_sample = Ok out ∧
    ∀ i j,
      (at2 m i j = true ↔
       (0.2 < nonmissing_fraction (at_time SST_sample 0) (290 + i) (50 + j))%Q) ∧
      (∀ k, at_freq out k i j = if at2 m i j then at_freq T_sample k i j else None) ∧
      ((nonmissing_fraction (at_time SST_sample 0) (290 + i) (50 + j) < 0.2)%Q →
       ∀ k, at_freq out k i j = None).
Proof.
  apply (masking_threshold SST_sample T_sample);
    [cbn; lia | reflexivity | reflexivity | reflexivity | reflexivity].
Defined.

(** A cell with exactly 5 of its 25 samples present has fraction 0.2, which
    does not exceed the threshold: the cell is masked out. *)
Example mask_at_threshold :
  nonmissing_count (at_time SST_sample 0) 290 60 = 5 ∧
  match remask T_sample SST_sample with
  | Ok out => at_freq out 2 0 10 = None ∧ at_freq out 2 0 9 = Some 11%Q
  | Raise _ => False
  end.
Proof. vm_compute. done. Qed.

Lemma mask_first_snapshot_only_witness :
  same_mask (mask SST_sample) (mask SST_sample_later).
Proof.
  apply (mask_first_snapshot_only SST_sample SST_sample_later);
    [reflexivity | reflexivity | reflexivity | intros i j; reflexivity].
Defined.

(** ** Label-based selection *)

(** Along an ascending axis every later label is at least the first one. *)
Lemma monotonic_cons (x : Q) (labels : list Q) :
  pd.is_monotonic_increasing (x :: labels) = true →
  Forall (λ y, (x <= y)%Q) labels ∧ pd.is_monotonic_increasing labels = true.
Proof.
  revert x. induction labels as [|y l IH]; intros x Hm; [by split|].
  cbn [pd.is_monotonic_increasing] in Hm. apply andb_true_iff in Hm as [Hxy Hm].
  apply Qle_bool_iff in Hxy. destruct (IH y Hm) as [Hall _].
  split; [|exact Hm]. constructor; [exact Hxy|].
  eapply Forall_impl; [exact Hall|]. intros z Hz. cbn in Hz. lra.
Qed.

Section selection.
Context {A : Type}.
Implicit Types (labels : list Q) (vals : list A) (p q : Q → bool).

Lemma filter_zip_none p labels vals :
  Forall (λ y, p y = false) labels →
  filter (λ b : Q * A, p b.1) (zip labels vals) = [].
Proof.
  intros Hall. revert vals. induction Hall as [|y l Hy Hall IH]; intros [|v vs]; try done.
  cbn [zip zip_with]. rewrite filter_cons, decide_False; [apply IH|].
  cbn [fst]. rewrite Hy. intros [].
Qed.

Lemma filter_zip_all p labels vals :
  length vals = length labels → Forall (λ y, p y = true) labels →
  (filter (λ b : Q * A, p b.1) (zip labels vals)).*2 = vals.
Proof.
  intros Hlen Hall. revert vals Hlen.
  induction Hall as [|y l Hy Hall IH]; intros [|v vs] Hlen; try done.
  injection Hlen as Hlen. cbn [zip zip_with].
  rewrite filter_cons, decide_True by (cbn [fst]; by rewrite Hy).
  cbn. by rewrite IH.
Qed.

Lemma filter_zip_ext p q labels vals :
  Forall (λ y, p y = q y) labels →
  filter (λ b : Q * A, p b.1) (zip labels vals)
  = filter (λ b : Q * A, q b.1) (zip labels vals).
Proof.
  intros Hall. revert vals. induction Hall as [|y l Hy Hall IH]; intros [|v vs]; try done.
  cbn [zip zip_with]. rewrite !filter_cons, IH. cbn [fst]. rewrite Hy. done.
Qed.

(** The stop bound: the bins not above it are a prefix of the axis. *)
Lemma filter_stop_prefix (b : Q) labels vals :
  length vals = length labels → pd.is_monotonic_increasing labels = true →
  (filter (λ c : Q * A, Qle_bool c.1 b) (zip labels vals)).*2
  = take (pd.leading (λ x, Qle_bool x b) labels) vals.
Proof.
  revert vals. induction labels as [|x l IH]; intros [|v vs] Hlen Hm; try done.
  apply monotonic_cons in Hm as [Hall Hm]. injection Hlen as Hlen.
  cbn [zip zip_with pd.leading]. rewrite filter_cons. cbn [fst].
  destruct (Qle_bool x b) eqn:Hx.
  - rewrite decide_True by done. cbn. by rewrite IH.
  - rewrite decide_False by (intros []).
    rewrite (filter_zip_none (λ y, Qle_bool y b)); [done|].
    eapply Forall_impl; [exact Hall|]. intros y Hy. cbn in Hy.
    apply not_true_is_false. rewrite Qle_bool_iff. intros Hyb.
    apply not_true_iff_false in Hx. apply Hx. apply Qle_bool_iff. lra.
Qed.

(** A label slice selects the bins between its bounds, both included. *)
Lemma slice_indexer_closed (s : slice) labels vals :
  length vals = length labels → pd.is_monotonic_increasing labels = true →
  take ((pd.slice_indexer labels s).2 - (pd.slice_indexer labels s).1)
       (drop (pd.slice_indexer labels s).1 vals)
  = (filter (λ c : Q * A, in_closed s c.1) (zip labels vals)).*2.
Proof.
  destruct s as [lo hi]. unfold pd.slice_indexer, in_closed. cbn [start stop fst snd].
  destruct hi as [b|].
  - (* a stop bound *)
    unfold pd.searchsorted_right.
    destruct lo as [a|].
    + unfold pd.searchsorted_left.
      revert vals. induction labels as [|x l IH]; intros [|v vs] Hlen Hm; try done.
      pose proof Hm as Hm0. apply monotonic_cons in Hm as [Hall Hm]. injection Hlen as Hlen.
      cbn [pd.leading]. change (Qlt_bool x a) with (negb (Qle_bool a x)).
      destruct (Qle_bool a x) eqn:Hax; cbn [negb].
      * (* the start bound is reached: only the stop bound matters from here on *)
        rewrite Nat.sub_0_r, drop_0.
        assert (length (v :: vs) = length (x :: l)) as Hlen' by (cbn; by f_equal).
        pose proof (filter_stop_prefix b (x :: l) (v :: vs) Hlen' Hm0) as Hp.
        cbn [pd.leading] in Hp. rewrite <- Hp. f_equal. symmetry.
        apply (filter_zip_ext (λ y, Qle_bool a y && Qle_bool y b) (λ y, Qle_bool y b)).
        constructor; [by rewrite Hax|].
        eapply Forall_impl; [exact Hall|]. intros y Hy. cbn in Hy.
        apply Qle_bool_iff in Hax.
        assert (Qle_bool a y = true) as -> by (apply Qle_bool_iff; lra). done.
      * cbn [zip zip_with]. rewrite filter_cons, decide_False by (cbn [fst]; rewrite Hax; intros []).
        destruct (Qle_bool x b) eqn:Hxb.
        -- cbn [drop]. rewrite Nat.sub_succ. by apply IH.
        -- cbn [Nat.sub take].
           rewrite (filter_zip_none (λ y, Qle_bool a y && Qle_bool y b)); [done|].
           eapply Forall_impl; [exact Hall|]. intros y Hy. cbn in Hy.
           apply andb_false_intro2, not_true_is_false. rewrite Qle_bool_iff. intros Hyb.
           apply not_true_iff_false in Hxb. apply Hxb. apply Qle_bool_iff. lra.
    + intros Hlen Hm. rewrite Nat.sub_0_r, drop_0. cbn [andb].
      symmetry. by apply filter_stop_prefix.
  - (* no stop bound *)
    destruct lo as [a|].
    + unfold pd.searchsorted_left.
      revert vals. induction labels as [|x l IH]; intros [|v vs] Hlen Hm; try done.
      apply monotonic_cons in Hm as [Hall Hm]. injection Hlen as Hlen.
      cbn [pd.leading length]. change (Qlt_bool x a) with (negb (Qle_bool a x)).
      destruct (Qle_bool a x) eqn:Hax; cbn [negb].
      * rewrite Nat.sub_0_r, drop_0, firstn_all2 by (cbn; lia).
        symmetry. apply (filter_zip_all (λ y, Qle_bool a y && true)); [cbn; by f_equal|].
        constructor; [by rewrite Hax|].
        eapply Forall_impl; [exact Hall|]. intros y Hy. cbn in Hy.
        apply Qle_bool_iff in Hax.
        assert (Qle_bool a y = true) as -> by (apply Qle_bool_iff; lra). done.
      * cbn [zip zip_with]. rewrite filter_cons, decide_False by (cbn [fst]; rewrite Hax; intros []).
        cbn [drop]. rewrite Nat.sub_succ. by apply IH.
    + intros Hlen Hm. rewrite Nat.sub_0_r, drop_0, firstn_all2 by lia. cbn [andb].
      symmetry. apply (filter_zip_all (λ _, true)); [done|].
      by apply Forall_forall.
Qed.

End selection.

Lemma filter_zip_diag (p : Q → bool) (labels : list Q) :
  (filter (λ c : Q * Q, p c.1) (zip labels labels)).*2 = filter (λ f, p f) labels.
Proof.
  induction labels as [|x l IH]; [done|].
  cbn [zip zip_with]. rewrite !filter_cons. cbn [fst].
  destruct (p x).
  - rewrite !decide_True by done. cbn [fmap list_fmap snd]. by rewrite IH.
  - rewrite !decide_False by (intros []). done.
Qed.

Lemma freq_time_sel {A} (s : slice) (T : Spectrum A) :
  freq_time (sel_freq_time s T)
  = take ((pd.slice_indexer (freq_time T) s).2 - (pd.slice_indexer (freq_time T) s).1)
         (drop (pd.slice_indexer (freq_time T) s).1 (freq_time T)).
Proof. unfold sel_freq_time. by destruct (pd.slice_indexer (freq_time T) s). Qed.

Lemma column_sel {A} (s : slice) (T : Spectrum A) (i j : nat) :
  column (sel_freq_time s T) i j
  = take ((pd.slice_indexer (freq_time T) s).2 - (pd.slice_indexer (freq_time T) s).1)
         (drop (pd.slice_indexer (freq_time T) s).1 (column T i j)).
Proof.
  unfold column, sel_freq_time.
  destruct (pd.slice_indexer (freq_time T) s) as [i0 i1]. cbn [freq_time at_freq fst snd].
  rewrite <- fmap_drop, <- fmap_take, drop_seq, take_seq, length_take, length_drop.
  rewrite (list_fmap_compose (Nat.add i0) (λ k, at_freq T k i j)), fmap_add_seq.
  by rewrite Nat.add_0_r.
Qed.

Lemma column_length {A} (T : Spectrum A) (i j : nat) :
  length (column T i j) = length (freq_time T).
Proof. unfold column. by rewrite length_fmap, length_seq. Qed.

(** Over an ascending axis the selected frequencies are those between the
    bounds of the slice, both included ... *)
Lemma sel_freq_time_closed {A} (s : slice) (T : Spectrum A) :
  pd.is_monotonic_increasing (freq_time T) = true →
  freq_time (sel_freq_time s T) = filter (λ f, in_closed s f) (freq_time T).
Proof.
  intros Hm. rewrite freq_time_sel, <- filter_zip_diag. by apply slice_indexer_closed.
Qed.

(** ... and the selected samples at a point are the samples of those bins. *)
Lemma column_sel_closed {A} (s : slice) (T : Spectrum A) (i j : nat) :
  pd.is_monotonic_increasing (freq_time T) = true →
  column (sel_freq_time s T) i j
  = (filter (λ b : Q * A, in_closed s b.1) (bins T i j)).*2.
Proof.
  intros Hm. rewrite column_sel. apply slice_indexer_closed; [apply column_length|done].
Qed.

(** C1 (as amended). Band aggregation over an ascending frequency axis:
    the selection keeps exactly the bins whose frequency lies between the
    band's bounds, both bounds included (and every bin from the start bound
    on when the band has no stop bound), and the band average at a spatial
    point is the unweighted mean of the samples of those bins.  It is a
    function of the band and the spectral array alone. *)
Theorem band_aggregation_closed_interval (s : slice) (T : Spectrum sample) (i j : nat) :
  pd.is_monotonic_increasing (freq_time T) = true →
  freq_time (sel_freq_time s T) = filter (λ f, in_closed s f) (freq_time T) ∧
  column (sel_freq_time s T) i j
    = (filter (λ b : Q * sample, in_closed s b.1) (bins T i j)).*2 ∧
  at2 (band_average s T) i j
    = nanmean (filter (λ b : Q * sample, in_closed s b.1) (bins T i j)).*2.
Proof.
  intros Hm. split; [by apply sel_freq_time_closed|].
  split; [by apply column_sel_closed|].
  unfold band_average, mean_freq_time. cbn [at2]. by rewrite column_sel_closed.
Qed.

Lemma band_aggregation_closed_interval_witness :
  freq_time (sel_freq_time (Slice (Some (1 / 100)%Q) (Some (1 / 10)%Q)) T_sample)
    = filter (λ f, in_closed (Slice (Some (1 / 100)%Q) (Some (1 / 10)%Q)) f)
        (freq_time T_sample) ∧
  column (sel_freq_time (Slice (Some (1 / 100)%Q) (Some (1 / 10)%Q)) T_sample) 0 0
    = (filter (λ b : Q * sample, in_closed (Slice (Some (1 / 100)%Q) (Some (1 / 10)%Q)) b.1)
         (bins T_sample 0 0)).*2 ∧
  at2 (band_average (Slice (Some (1 / 100)%Q) (Some (1 / 10)%Q)) T_sample) 0 0
    = nanmean (filter (λ b : Q * sample,
                 in_closed (Slice (Some (1 / 100)%Q) (Some (1 / 10)%Q)) b.1)
                 (bins T_sample 0 0)).*2.
Proof.
  apply (band_aggregation_closed_interval
           (Slice (Some (1 / 100)%Q) (Some (1 / 10)%Q)) T_sample 0 0).
  reflexivity.
Defined.

(** A spectral array with a bin at exactly 1/10 cycles per day: the band
    "10 days - 100 days" is [slice(1/100, 1/10)], and its selection takes
    that bin, which the half-open interval from 1/100 to 1/10 excludes; the
    band average at a point differs accordingly. *)
Lemma band_selection_not_half_open :
  pd.is_monotonic_increasing (freq_time T_sample) = true ∧
  bands !! 3 = Some ("10 days - 100 days", Slice (Some (1 / 100)%Q) (Some (1 / 10)%Q)) ∧
  freq_time (sel_freq_time (Slice (Some (1 / 100)%Q) (Some (1 / 10)%Q)) T_sample)
    ≠ filter (λ f, in_half_open (Slice (Some (1 / 100)%Q) (Some (1 / 10)%Q)) f)
        (freq_time T_sample) ∧
  at2 (band_average (Slice (Some (1 / 100)%Q) (Some (1 / 10)%Q)) T_sample) 0 0
    ≠ nanmean (filter (λ b : Q * sample,
                 in_half_open (Slice (Some (1 / 100)%Q) (Some (1 / 10)%Q)) b.1)
                 (bins T_sample 0 0)).*2.
Proof. repeat split; vm_compute; discriminate. Qed.

(** The two selections and the two averages of that input, evaluated. *)
Example band_selection_at_stop_bound :
  freq_time (sel_freq_time (Slice (Some (1 / 100)%Q) (Some (1 / 10)%Q)) T_sample)
    = [1 / 20; 1 / 10]%Q ∧
  filter (λ f, in_half_open (Slice (Some (1 / 100)%Q) (Some (1 / 10)%Q)) f)
    (freq_time T_sample) = [1 / 20]%Q ∧
  at2 (band_average (Slice (Some (1 / 100)%Q) (Some (1 / 10)%Q)) T_sample) 0 0
    = Some (3 # 2)%Q ∧
  nanmean (filter (λ b : Q * sample,
             in_half_open (Slice (Some (1 / 100)%Q) (Some (1 / 10)%Q)) b.1)
             (bins T_sample 0 0)).*2
    = Some 1%Q.
Proof. repeat split. Qed.

(** ** The band table *)

(** The bounds of the band table, as fractions [lra] reads. *)
Ltac band_bounds :=
  change (1 / 3650)%Q with (1 # 3650)%Q in *;
  change (1 / 400)%Q with (1 # 400)%Q in *;
  change (1 / 370)%Q with (1 # 370)%Q in *;
  change (1 / 360)%Q with (1 # 360)%Q in *;
  change (1 / 100)%Q with (1 # 100)%Q in *;
  change (1 / 10)%Q with (1 # 10)%Q in *.

Lemma in_closed_spec (s : slice) (f : Q) :
  in_closed s f = true ↔
  (∀ a, start s = Some a → (a <= f)%Q) ∧ (∀ b, stop s = Some b → (f <= b)%Q).
Proof.
  unfold in_closed. rewrite andb_true_iff.
  destruct (start s) as [a|], (stop s) as [b|]; rewrite ?Qle_bool_iff;
    split; intros [H1 H2]; (split; [try done|try done]);
    try (intros ? [= <-]; done); try (by apply H1); try (by apply H2).
Qed.

(** C10. The band table leaves a gap: a frequency strictly between 1/400
    and 1/370 cycles per day lies in none of the five bands, and no band's
    selection over an ascending frequency axis contains a bin at such a
    frequency, so the bin enters no band average. *)
Theorem bands_gap (f : Q) (T : Spectrum sample) :
  (1 / 400 < f)%Q → (f < 1 / 370)%Q →
  pd.is_monotonic_increasing (freq_time T) = true →
  Forall (λ band : string * slice,
            in_closed band.2 f = false ∧
            f ∉ freq_time (sel_freq_time band.2 T)) bands.
Proof.
  intros Hlo Hhi Hm.
  assert (Hout : Forall (λ band : string * slice, in_closed band.2 f = false) bands).
  { unfold bands. band_bounds.
    repeat constructor; cbn [snd]; apply not_true_is_false;
      rewrite in_closed_spec; cbn [start stop]; intros [Ha Hb];
      try specialize (Ha _ eq_refl); try specialize (Hb _ eq_refl); lra. }
  eapply Forall_impl; [exact Hout|]. intros [name s] Hs. cbn [snd] in *.
  split; [exact Hs|].
  rewrite sel_freq_time_closed by done.
  rewrite list_elem_of_filter. intros [Hin _]. rewrite Hs in Hin. exact Hin.
Qed.

Lemma bands_gap_witness :
  Forall (λ band : string * slice,
            in_closed band.2 (1 / 380)%Q = false ∧
            (1 / 380)%Q ∉ freq_time (sel_freq_time band.2 T_sample)) bands.
Proof.
  apply (bands_gap (1 / 380)%Q T_sample); reflexivity.
Defined.

(** ** The power spectrum *)

Lemma fillna_all_defined (v : Q) (var : TimeArray) : all_defined (fillna v var) = true.
Proof.
  unfold all_defined. cbn [fillna ntime t_nlat t_nlon at_time].
  apply forallb_forall. intros t _. apply forallb_forall. intros i _.
  apply forallb_forall. intros j _. by destruct (at_time var t i j).
Qed.

Lemma present_Some (l : list Q) : present (Some <$> l) = l.
Proof.
  unfold present. induction l as [|x l IH]; [done|].
  cbn. by rewrite IH.
Qed.

Section spectral_properties.

Variable xrft_transform : string → string → bool → TimeArray → Spectrum complex.

Lemma take_power_spectrum_ok (var : TimeArray) (real_arg : string) :
  take_power_spectrum xrft_transform var real_arg
  = Ok (xrft_transform real_arg "linear" true (fillna 0 (chunk_time_None var))).
Proof.
  unfold take_power_spectrum, xrft_power_spectrum.
  rewrite fillna_all_defined, bool_decide_eq_true_2 by reflexivity.
  reflexivity.
Qed.

(** C3. [take_power_spectrum] establishes the precondition of the
    transform before it calls it: after the rechunk the time axis is one
    block, after the fill no sample is undefined, both still hold of the
    array the transform receives, and so the call never takes the
    precondition-violation branch: it returns the transform of the
    normalised array. *)
Theorem take_power_spectrum_precondition (var : TimeArray) (real_arg : string) :
  time_chunks (chunk_time_None var) = [ntime (chunk_time_None var)] ∧
  time_chunks (fillna 0 (chunk_time_None var))
    = [ntime (fillna 0 (chunk_time_None var))] ∧
  (∀ t i j, is_Some (at_time (fillna 0 (chunk_time_None var)) t i j)) ∧
  all_defined (fillna 0 (chunk_time_None var)) = true ∧
  take_power_spectrum xrft_transform var real_arg
    = Ok (xrft_transform real_arg "linear" true (fillna 0 (chunk_time_None var))) ∧
  take_power_spectrum xrft_transform var real_arg ≠ Raise TransformPreconditionError.
Proof.
  split; [reflexivity|]. split; [reflexivity|]. split.
  { intros t i j. cbn [fillna at_time]. destruct (at_time _ t i j); eauto. }
  split; [apply fillna_all_defined|].
  split; [apply take_power_spectrum_ok|].
  rewrite take_power_spectrum_ok. discriminate.
Qed.

(** C2. The power value the workflow reports: before coarsening, the
    value at every frequency bin and spatial point is the real component
    of the complex output of the transform call (not its squared
    magnitude); the reported array is the 5 x 5 block mean of those real
    components. *)
Theorem power_is_real_part (Txr_rechunked : TimeArray) :
  s_nlat (xrft_transform "time" "linear" true
            (fillna 0 (chunk_time_None Txr_rechunked))) `mod` 5 = 0 →
  s_nlon (xrft_transform "time" "linear" true
            (fillna 0 (chunk_time_None Txr_rechunked))) `mod` 5 = 0 →
  ∃ T_calc T,
    T_calc_power_spectrum xrft_transform Txr_rechunked = Ok T_calc ∧
    T_power_spectrum xrft_transform Txr_rechunked = Ok T ∧
    (∀ k i j, at_freq (real T_calc) k i j = Some (re (at_freq T_calc k i j))) ∧
    (∀ k I J, at_freq T k I J
              = nanmean (xr.window 5 5 (at_freq (real T_calc) k) I J)) ∧
    (∀ k I J, at_freq T k I J
              = mean (re <$> xr.window 5 5 (at_freq T_calc k) I J)).
Proof.
  intros Hlat Hlon.
  eexists _, _. split; [apply take_power_spectrum_ok|]. split.
  { unfold T_power_spectrum, T_calc_power_spectrum.
    rewrite take_power_spectrum_ok. cbn [mbind result_bind].
    unfold xr.coarsen3, xr.exact. cbn [real s_nlat s_nlon].
    rewrite !bool_decide_eq_true_2 by (split; [lia|done]).
    reflexivity. }
  split; [reflexivity|]. split; [reflexivity|].
  intros k I J. cbn [at_freq real].
  rewrite (window_fmap (λ z, Some (re z))). unfold nanmean.
  by rewrite (list_fmap_compose re Some), present_Some.
Qed.

(** Cell 32 reads the reported array at the region's offset. *)
Lemma T_power_spectrum_region_at (Txr_rechunked : TimeArray) (T : Spectrum sample) :
  T_power_spectrum xrft_transform Txr_rechunked = Ok T →
  ∃ R,
    T_power_spectrum_region xrft_transform Txr_rechunked = Ok R ∧
    freq_time R = freq_time T ∧
    s_nlat R = xr.slice_len 290 380 (s_nlat T) ∧
    s_nlon R = xr.slice_len 50 220 (s_nlon T) ∧
    ∀ k i j, at_freq R k i j = at_freq T k (290 + i) (50 + j).
Proof.
  intros HT. unfold T_power_spectrum_region. rewrite HT.
  eexists. split; [reflexivity|]. done.
Qed.

End spectral_properties.

(** The real component is not the squared magnitude: on the output sample
    3 + 4i the workflow reports 3 where the power is 25, and on -1 it
    reports a negative "power". *)
Example real_part_is_not_power :
  re (3, 4)%Q = 3%Q ∧ abs2 (3, 4)%Q = 25%Q ∧
  re (-1, 0)%Q = (-1)%Q ∧ abs2 (-1, 0)%Q = 1%Q.
Proof. repeat split. Qed.

Lemma power_is_real_part_witness :
  ∃ T_calc T,
    T_calc_power_spectrum two_point_transform SST_sample_later = Ok T_calc ∧
    T_power_spectrum two_point_transform SST_sample_later = Ok T ∧
    (∀ k i j, at_freq (real T_calc) k i j = Some (re (at_freq T_calc k i j))) ∧
    (∀ k I J, at_freq T k I J
              = nanmean (xr.window 5 5 (at_freq (real T_calc) k) I J)) ∧
    (∀ k I J, at_freq T k I J
              = mean (re <$> xr.window 5 5 (at_freq T_calc k) I J)).
Proof.
  apply (power_is_real_part two_point_transform SST_sample_later); reflexivity.
Defined.

(** On the small series the reported value of bin 1 in a cell where day 0
    is present is the real part 15 - 3, where the squared magnitude would
    be 144; in a cell where day 0 is missing (filled with 0) it is -3. *)
Example reported_power_sample :
  match T_power_spectrum two_point_transform Txr_sample with
  | Ok T =>
      match at_freq T 1 0 0, at_freq T 1 1 0 with
      | Some v, Some v' => (v == 12)%Q ∧ (v' == -3)%Q
      | _, _ => False
      end
  | Raise _ => False
  end.
Proof. vm_compute. done. Qed.

(** ** Clearing the stores *)

Lemma try_rm (name : string * zkey) (w : cloud) :
  try_except_FileNotFoundError (gcs.rm name) w
  = (Ok (), mkCloud (delete name (objects w)) (dispatched w)).
Proof.
  unfold try_except_FileNotFoundError, gcs.rm.
  destruct (objects w !! name) eqn:Hname; [done|].
  rewrite delete_id by done. by destruct w.
Qed.


Lemma clear_targets_run (scratch_path : string) (w : cloud) :
  clear_targets scratch_path w
  = (Ok (), mkCloud (delete (target_path, zarray)
                       (delete (tmp_path scratch_path, zarray) (objects w)))
                    (dispatched w)).
Proof.
  unfold clear_targets. cbn [for_each]. unfold mbind, io_bind.
  rewrite !try_rm. reflexivity.
Qed.

(** Whatever the scratch path is, the temporary path differs from the
    target path: the two names end differently. *)
Lemma tmp_path_not_target (scratch_path : string) : tmp_path scratch_path ≠ target_path.
Proof.
  unfold tmp_path, target_path, varname. cbn [String.app].
  revert scratch_path.
  do 60 (intros [|? scratch_path]; [discriminate|];
         cbn [String.app]; intros [= _ H]; try discriminate H;
         revert scratch_path H).
Qed.

(** ** The rechunk step *)

Section rechunk_properties.

Variable working_overhead : N.

(** C5. A memory budget smaller than the byte size of one target chunk
    plus the working overhead: the rechunk call fails with a configuration
    error, the plan is never executed, and the cloud is left as it was: no
    object is written to the staging or target store and no task is
    dispatched. *)
Theorem rechunk_budget_too_small (array : array3) (target_chunks : nat * nat * nat)
    (max_mem : N) (target_path tmp_path : string) (w : cloud) :
  (max_mem < rechunker.chunk_bytes target_chunks (itemsize array) + working_overhead)%N →
  rechunker.rechunk working_overhead array target_chunks max_mem target_path tmp_path
    = Raise ConfigurationError ∧
  rechunk_and_execute working_overhead array target_chunks max_mem target_path tmp_path w
    = (Raise ConfigurationError, w).
Proof.
  intros Hsmall.
  assert (Hr : rechunker.rechunk working_overhead array target_chunks max_mem
                 target_path tmp_path = Raise ConfigurationError).
  { unfold rechunker.rechunk. rewrite decide_False by lia. reflexivity. }
  split; [exact Hr|]. unfold rechunk_and_execute. by rewrite Hr.
Qed.

End rechunk_properties.

(** ** Writing and reading a chunked array *)

Lemma nchunks_bound (t n c : nat) : 0 < c → t < n → t `div` c < zarr.nchunks n c.
Proof.
  intros Hc Ht. unfold zarr.nchunks.
  apply Nat.Div0.div_lt_upper_bound.
  pose proof (Nat.div_mod_eq (n + c - 1) c).
  pose proof (Nat.mod_upper_bound (n + c - 1) c). nia.
Qed.

Lemma elem_of_grid (sh c : nat * nat * nat) (ci cj ck : nat) :
  ci < zarr.nchunks sh.1.1 c.1.1 → cj < zarr.nchunks sh.1.2 c.1.2 →
  ck < zarr.nchunks sh.2 c.2 →
  (ci, cj, ck) ∈ zarr.grid sh c.
Proof.
  intros Hi Hj Hk. unfold zarr.grid.
  apply list_elem_of_bind. exists ci. split; [|apply elem_of_seq; lia].
  apply list_elem_of_bind. exists cj. split; [|apply elem_of_seq; lia].
  apply list_elem_of_bind. exists ck. split; [|apply elem_of_seq; lia].
  apply list_elem_of_singleton. done.
Qed.

Lemma block_get_block (sh c : nat * nat * nat) (f : nat → nat → nat → sample)
    (ci cj ck a b d : nat) :
  a < c.1.1 → b < c.1.2 → d < c.2 →
  zarr.block_get (zarr.block sh c f ci cj ck) a b d
  = if inside sh (ci * c.1.1 + a) (cj * c.1.2 + b) (ck * c.2 + d)
    then f (ci * c.1.1 + a) (cj * c.1.2 + b) (ck * c.2 + d)
    else None.
Proof.
  intros Ha Hb Hd. unfold zarr.block_get, zarr.block.
  rewrite list_lookup_fmap, lookup_seq_lt by done. cbn [fmap option_fmap option_map].
  rewrite list_lookup_fmap, lookup_seq_lt by done. cbn [fmap option_fmap option_map].
  rewrite list_lookup_fmap, lookup_seq_lt by done. reflexivity.
Qed.

Lemma lookup_write_chunks (path : string) (sh c : nat * nat * nat)
    (f : nat → nat → nat → sample) (m : bucket) (l : list (nat * nat * nat))
    (ci cj ck : nat) :
  (ci, cj, ck) ∈ l →
  foldr (zarr.write_chunk path sh c f) m l !! (path, zchunk ci cj ck)
  = Some (Chunk (zarr.block sh c f ci cj ck)).
Proof.
  induction l as [|idx l IH]; intros Hin; [by apply elem_of_nil in Hin|].
  cbn [foldr]. unfold zarr.write_chunk at 1.
  destruct (decide (idx = (ci, cj, ck))) as [->|Hne].
  - cbn [fst snd]. apply lookup_insert_eq.
  - rewrite lookup_insert_ne.
    + apply IH. apply elem_of_cons in Hin as [Heq|Hin]; [congruence|done].
    + destruct idx as [[i1 j1] k1]. cbn [fst snd]. congruence.
Qed.

(** A sample inside the shape reads back as it was written. *)
Lemma read_write (path : string) (sh c : nat * nat * nat) (sz : N)
    (f : nat → nat → nat → sample) (m : bucket) (t y x : nat) :
  positive_extents c → inside sh t y x = true →
  zarr.read (zarr.write path (mkZmeta sh c sz) f m) path c t y x = f t y x.
Proof.
  intros (Hc1 & Hc2 & Hc3) Hin. pose proof Hin as Hin'.
  unfold inside in Hin'. rewrite !andb_true_iff, !Nat.ltb_lt in Hin'.
  destruct Hin' as [[Ht Hy] Hx].
  unfold zarr.read, zarr.write. cbn [z_shape z_chunks].
  rewrite lookup_insert_ne by congruence.
  rewrite lookup_write_chunks by (apply elem_of_grid; by apply nchunks_bound).
  rewrite block_get_block by (apply Nat.mod_upper_bound; lia).
  assert (Hdm : ∀ n k, 0 < k → n `div` k * k + n `mod` k = n).
  { intros n k Hk. pose proof (Nat.div_mod_eq n k). lia. }
  rewrite !Hdm by done. by rewrite Hin.
Qed.

Lemma from_zarr_write (path : string) (meta : zmeta)
    (f : nat → nat → nat → sample) (m : bucket) :
  dsa.from_zarr path (zarr.write path meta f m)
  = Ok (mkArray3 (z_shape meta) (z_chunks meta) (z_itemsize meta)
          (λ t y x, if inside (z_shape meta) t y x
                    then zarr.read (zarr.write path meta f m) path (z_chunks meta) t y x
                    else None)).
Proof. unfold dsa.from_zarr, zarr.write at 1. by rewrite lookup_insert_eq. Qed.

Lemma contains_array_false (m : bucket) (path : string) :
  zarr.contains_array m path = false ↔ m !! (path, zarray) = None.
Proof.
  unfold zarr.contains_array. rewrite bool_decide_eq_false, <- eq_None_not_Some. done.
Qed.


(** What the store holds once both passes are written. *)
Lemma written_reads_back (r : rechunker.plan) (base : bucket) (log : list task) :
  positive_extents (rechunker.int_chunks r) →
  positive_extents (rechunker.write_chunks r) →
  reads_back (rechunker.source r) (rechunker.write_chunks r) (rechunker.target_store r)
    (mkCloud
       (zarr.write (rechunker.target_store r) (rechunker.target_meta r)
          (zarr.read
             (zarr.write (rechunker.temp_store r) (rechunker.temp_meta r)
                (elements (rechunker.source r)) base)
             (rechunker.temp_store r) (rechunker.int_chunks r))
          (zarr.write (rechunker.temp_store r) (rechunker.temp_meta r)
             (elements (rechunker.source r)) base))
       log).
Proof.
  intros Hint Hwrite. unfold reads_back. cbn [objects].
  eexists. split; [apply from_zarr_write|].
  unfold rechunker.target_meta, rechunker.temp_meta.
  cbn [shape chunks itemsize elements z_shape z_chunks z_itemsize].
  split; [done|]. split; [done|]. split; [done|].
  intros t y x Hin. rewrite Hin. rewrite read_write by done. by apply read_write.
Qed.

Section round_trip.

Variable working_overhead : N.

(** The run of the rechunk cells on stores that hold no array metadata. *)
Lemma rechunk_and_execute_clear (array : array3) (target_chunks : nat * nat * nat)
    (max_mem : N) (target_path tmp_path : string) (w : cloud) :
  (rechunker.chunk_bytes target_chunks (itemsize array) + working_overhead < max_mem)%N →
  tmp_path ≠ target_path →
  objects w !! (target_path, zarray) = None →
  objects w !! (tmp_path, zarray) = None →
  ∃ w', rechunk_and_execute working_overhead array target_chunks max_mem
          target_path tmp_path w = (Ok (), w').
Proof.
  intros Hmem Hne Htarget Htmp.
  unfold rechunk_and_execute, rechunker.rechunk. rewrite decide_True by done.
  unfold rechunker.execute. cbn [rechunker.target_store rechunker.temp_store].
  rewrite (proj2 (contains_array_false _ _) Htarget).
  rewrite (proj2 (contains_array_false _ tmp_path));
    [eauto | by rewrite lookup_insert_ne by congruence].
Qed.

(** A successful run leaves the source array in the target store. *)
Lemma rechunk_and_execute_reads_back (array : array3) (target_chunks : nat * nat * nat)
    (max_mem : N) (target_path tmp_path : string) (w w' : cloud) :
  positive_extents (chunks array) → positive_extents target_chunks →
  rechunk_and_execute working_overhead array target_chunks max_mem
    target_path tmp_path w = (Ok (), w') →
  reads_back array target_chunks target_path w'.
Proof.
  intros Hsrc Htgt. unfold rechunk_and_execute, rechunker.rechunk.
  destruct (decide _); [|discriminate].
  unfold rechunker.execute.
  destruct (zarr.contains_array (objects w) _); [discriminate|].
  destruct (zarr.contains_array (<[_:=_]> (objects w)) _); [discriminate|].
  intros [= <-].
  match goal with
  | |- reads_back _ _ _ (mkCloud (zarr.write _ _ _ (zarr.write _ _ _ ?base)) ?log) =>
      apply (written_reads_back
               (rechunker.mkPlan array
                  ((chunks array).1.1 `min` target_chunks.1.1,
                   (chunks array).1.2 `min` target_chunks.1.2,
                   (chunks array).2 `min` target_chunks.2)
                  target_chunks tmp_path target_path) base log)
  end; [|done].
  destruct Hsrc as (? & ? & ?), Htgt as (? & ? & ?).
  unfold positive_extents. cbn [rechunker.int_chunks fst snd]. lia.
Qed.


(** C7. Round trip of the rechunk: for positive chunk extents, whenever
    the rechunk succeeds, reading the target store back gives an array of
    the same shape, in the target chunk layout, whose sample at every
    index inside the shape is the sample of the source array, a missing
    sample included; and the rechunk does succeed when the memory budget
    suffices and neither store holds array metadata (worker failures
    being outside the model of [rechunker.execute]). *)
Theorem rechunk_round_trip (array : array3) (target_chunks : nat * nat * nat)
    (max_mem : N) (target_path tmp_path : string) (w : cloud) :
  positive_extents (chunks array) → positive_extents target_chunks →
  (∀ w',
     rechunk_and_execute working_overhead array target_chunks max_mem
       target_path tmp_path w = (Ok (), w') →
     ∃ back,
       dsa.from_zarr target_path (objects w') = Ok back ∧
       shape back = shape array ∧
       chunks back = target_chunks ∧
       itemsize back = itemsize array ∧
       ∀ t y x, inside (shape array) t y x = true →
                elements back t y x = elements array t y x) ∧
  ((rechunker.chunk_bytes target_chunks (itemsize array) + working_overhead < max_mem)%N →
   tmp_path ≠ target_path →
   objects w !! (target_path, zarray) = None →
   objects w !! (tmp_path, zarray) = None →
   ∃ w', rechunk_and_execute working_overhead array target_chunks max_mem
           target_path tmp_path w = (Ok (), w')).
Proof.
  intros Hsrc Htgt. split.
  - intros w' Hrun. by apply (rechunk_and_execute_reads_back _ _ max_mem _ tmp_path w).
  - apply rechunk_and_execute_clear.
Qed.


End round_trip.

Lemma rechunk_round_trip_witness :
  ∃ w' back,
    rechunk_and_execute 8 array_sample (3, 1, 2) 100
      target_path (tmp_path "scratch")
      (mkCloud {[ (target_path, zchunk 0 0 0) := Chunk [[[Some 99%Q]]] ]} [])
    = (Ok (), w') ∧
    dsa.from_zarr target_path (objects w') = Ok back ∧
    shape back = shape array_sample ∧
    chunks back = (3, 1, 2) ∧
    itemsize back = itemsize array_sample ∧
    ∀ t y x, inside (shape array_sample) t y x = true →
             elements back t y x = elements array_sample t y x.
Proof.
  destruct (rechunk_round_trip 8 array_sample (3, 1, 2) 100
              target_path (tmp_path "scratch")
              (mkCloud {[ (target_path, zchunk 0 0 0) := Chunk [[[Some 99%Q]]] ]} []))
    as [Hback Hruns].
  - unfold positive_extents. cbn. lia.
  - unfold positive_extents. cbn. lia.
  - destruct Hruns as [w' Hrun]; [reflexivity | discriminate | reflexivity | reflexivity |].
    exists w'. destruct (Hback w' Hrun) as (back & Hread). by exists back.
Defined.


(** The rechunk on the bucket a failed run left behind: without clearing
    it fails and changes nothing; after [clear_targets] it succeeds, the
    stale chunk is overwritten, and the target store reads back as the
    source array. *)
Example rerun_after_partial_failure :
  rechunk_and_execute 8 array_sample (3, 1, 2) 100
    target_path (tmp_path "scratch") cloud_partial
  = (Raise ContainsArrayError, cloud_partial) ∧
  match clear_targets "scratch" cloud_partial with
  | (Ok _, w') =>
      match rechunk_and_execute 8 array_sample (3, 1, 2) 100
              target_path (tmp_path "scratch") w' with
      | (Ok _, w2) =>
          match dsa.from_zarr target_path (objects w2) with
          | Ok back =>
              elements back 0 0 0 = Some 0%Q ∧ elements back 1 0 2 = Some 102%Q ∧
              elements back 2 1 0 = None ∧ elements back 3 1 2 = Some 312%Q
          | Raise _ => False
          end
      | _ => False
      end
  | _ => False
  end.
Proof. vm_compute. done. Qed.

Lemma rechunk_budget_too_small_witness :
  rechunker.rechunk 0 array_sample target_chunks 100000000
    target_path (tmp_path "scratch") = Raise ConfigurationError ∧
  rechunk_and_execute 0 array_sample target_chunks 100000000
    target_path (tmp_path "scratch") cloud_stale
    = (Raise ConfigurationError, cloud_stale).
Proof.
  apply (rechunk_budget_too_small 0 array_sample target_chunks 100000000
           target_path (tmp_path "scratch") cloud_stale).
  reflexivity.
Defined.

(** The notebook's own budget: a target chunk of 1825 x 90 x 180 four-byte
    samples is 118 260 000 bytes, below '1GB'. *)
Example notebook_budget :
  rechunker.chunk_bytes target_chunks 4 = 118260000%N ∧
  (rechunker.chunk_bytes target_chunks 4 < max_mem)%N.
Proof. split; reflexivity. Qed.

(** The path the rechunk cell writes and the path cell 24 reads differ in
    the bucket name: after a rechunk into an empty bucket, the array is
    found at [target_path] and not at the path cell 24 opens. *)
Example read_back_paths :
  target_path ≠ target_path_read ∧
  match rechunk_and_execute 8 array_sample (3, 1, 2) 100
          target_path (tmp_path "scratch") cloud_empty with
  | (Ok _, w') =>
      dsa.from_zarr target_path_read (objects w') = Raise ArrayNotFoundError ∧
      match dsa.from_zarr target_path (objects w') with
      | Ok back => elements back 3 1 2 = Some 312%Q ∧ elements back 2 1 0 = None
      | Raise _ => False
      end
  | _ => False
  end.
Proof. split; [discriminate|]. vm_compute. done. Qed.

(** [clear_targets] on a bucket with stale metadata at the target path. *)
Example clear_targets_stale :
  clear_targets "scratch" cloud_stale = (Ok (), cloud_empty).
Proof. vm_compute. reflexivity. Qed.

(** * Further properties *)

(** ** [clear_targets] *)


(** X1. [clear_targets] is idempotent: a second call succeeds as well and
    leaves the cloud exactly as the first call left it. *)
Theorem clear_targets_idempotent (scratch_path : string) (w : cloud) :
  ∃ w',
    clear_targets scratch_path w = (Ok (), w') ∧
    clear_targets scratch_path w' = (Ok (), w').
Proof.
  eexists. split; [apply clear_targets_run|].
  rewrite clear_targets_run. cbn [objects dispatched]. do 2 f_equal.
  apply map_eq. intros name. rewrite !lookup_delete.
  by repeat case_decide.
Qed.


Lemma size_delete_present (m : bucket) (name : string * zkey) (o : object) :
  m !! name = Some o → size m = S (size (delete name m)).
Proof.
  intros Hname. rewrite <- (insert_id m _ _ Hname) at 1.
  rewrite <- insert_delete_eq. apply map_size_insert_None, lookup_delete_eq.
Qed.

(** X2. [clear_targets] removes one object per store that held array
    metadata and nothing more: the temporary and the target path never
    coincide, whatever the scratch path is, so the bucket shrinks by
    exactly the number of '.zarray' objects present at the two paths. *)
Theorem clear_targets_size (scratch_path : string) (w : cloud) :
  tmp_path scratch_path ≠ target_path ∧
  ∃ w',
    clear_targets scratch_path w = (Ok (), w') ∧
    size (objects w)
    = size (objects w')
      + length (filter (λ path, is_Some (objects w !! (path, zarray)))
                  [tmp_path scratch_path; target_path]).
Proof.
  split; [apply tmp_path_not_target|].
  eexists. split; [apply clear_targets_run|]. cbn [objects].
  pose proof (tmp_path_not_target scratch_path) as Hne.
  rewrite !filter_cons, filter_nil.
  destruct (objects w !! (tmp_path scratch_path, zarray)) as [o1|] eqn:H1.
  - rewrite (decide_True (P := is_Some (Some o1))) by eauto.
    rewrite (size_delete_present _ _ _ H1).
    destruct (objects w !! (target_path, zarray)) as [o2|] eqn:H2.
    + rewrite decide_True by eauto.
      rewrite (size_delete_present (delete _ (objects w)) (target_path, zarray) o2)
        by (by rewrite lookup_delete_ne by congruence).
      cbn [length]. lia.
    + rewrite decide_False by (by intros [? ?]).
      rewrite (delete_id _ (target_path, zarray))
        by (by rewrite lookup_delete_ne by congruence).
      cbn [length]. lia.
  - rewrite (decide_False (P := is_Some None)) by (by intros [? ?]).
    rewrite (delete_id _ (tmp_path scratch_path, zarray)) by done.
    destruct (objects w !! (target_path, zarray)) as [o2|] eqn:H2.
    + rewrite decide_True by eauto.
      rewrite (size_delete_present _ _ _ H2). cbn [length]. lia.
    + rewrite decide_False by (by intros [? ?]).
      rewrite delete_id by done. cbn [length]. lia.
Qed.

(** X3. After [clear_targets] neither store can be opened as an array,
    yet no chunk has been deleted: the chunk objects of an earlier run stay
    in the bucket. *)
Theorem clear_targets_then_read (scratch_path : string) (w : cloud) :
  ∃ w',
    clear_targets scratch_path w = (Ok (), w') ∧
    dsa.from_zarr (tmp_path scratch_path) (objects w') = Raise ArrayNotFoundError ∧
    dsa.from_zarr target_path (objects w') = Raise ArrayNotFoundError ∧
    ∀ path ci cj ck,
      objects w' !! (path, zchunk ci cj ck) = objects w !! (path, zchunk ci cj ck).
Proof.
  eexists. split; [apply clear_targets_run|]. cbn [objects].
  unfold dsa.from_zarr. split; [|split].
  - rewrite lookup_delete. case_decide; [done|]. by rewrite lookup_delete_eq.
  - by rewrite lookup_delete_eq.
  - intros path ci cj ck. by rewrite !lookup_delete_ne.
Qed.

(** ** The validity mask, further *)

Lemma mask_cases (SST : TimeArray) :
  (mask SST = Raise IndexError ↔ ntime SST = 0) ∧
  (mask SST = Raise CoarsenBoundaryError ↔
   0 < ntime SST ∧ (t_nlat SST `mod` 5 ≠ 0 ∨ t_nlon SST `mod` 5 ≠ 0)) ∧
  ((∃ m, mask SST = Ok m) ↔
   0 < ntime SST ∧ t_nlat SST `mod` 5 = 0 ∧ t_nlon SST `mod` 5 = 0).
Proof.
  unfold mask, xr.isel_time0.
  destruct (decide (0 < ntime SST)) as [Ht|Ht]; cbn [mbind result_bind].
  2:{ split; [|split].
      - split; [lia|done].
      - split; [done|lia].
      - split; [by intros [m ?]|lia]. }
  unfold xr.coarsen2, xr.exact. cbn [nlat nlon xr.astype_int xr.notnull xr.map2].
  destruct (decide (t_nlat SST `mod` 5 = 0)) as [Hlat|Hlat];
    destruct (decide (t_nlon SST `mod` 5 = 0)) as [Hlon|Hlon].
  - rewrite !bool_decide_eq_true_2 by (split; [lia|done]).
    cbn [andb mbind result_bind mret result_ret].
    split; [split; [done|lia]|]. split; [split; [done|intros [_ [?|?]]; done]|].
    split; [done|eauto].
  - rewrite (bool_decide_eq_false_2 (5 ≠ 0 ∧ t_nlon SST `mod` 5 = 0)) by (by intros [_ ?]).
    rewrite andb_false_r. cbn [mbind result_bind].
    split; [split; [done|lia]|]. split; [split; [eauto|done]|].
    split; [by intros [m ?]|by intros (_ & _ & ?)].
  - rewrite (bool_decide_eq_false_2 (5 ≠ 0 ∧ t_nlat SST `mod` 5 = 0)) by (by intros [_ ?]).
    cbn [andb mbind result_bind].
    split; [split; [done|lia]|]. split; [split; [eauto|done]|].
    split; [by intros [m ?]|by intros (_ & ? & _)].
  - rewrite (bool_decide_eq_false_2 (5 ≠ 0 ∧ t_nlat SST `mod` 5 = 0)) by (by intros [_ ?]).
    cbn [andb mbind result_bind].
    split; [split; [done|lia]|]. split; [split; [eauto|done]|].
    split; [by intros [m ?]|by intros (_ & ? & _)].
Qed.

(** X4. The outcome of [mask]: it raises IndexError exactly on an empty
    time axis, the coarsening error exactly when the time axis is not
    empty and an extent of the grid is not a multiple of 5, and returns a
    mask in every other case. *)
Theorem mask_outcome (SST : TimeArray) :
  (mask SST = Raise IndexError ↔ ntime SST = 0) ∧
  (mask SST = Raise CoarsenBoundaryError ↔
   0 < ntime SST ∧ (t_nlat SST `mod` 5 ≠ 0 ∨ t_nlon SST `mod` 5 ≠ 0)) ∧
  ((∃ m, mask SST = Ok m) ↔
   0 < ntime SST ∧ t_nlat SST `mod` 5 = 0 ∧ t_nlon SST `mod` 5 = 0).
Proof. apply mask_cases. Qed.

Lemma Ok_inj {A} (a b : A) : Ok a = Ok b → a = b.
Proof. by intros [= ->]. Qed.

(** A returned mask is the one computed cell by cell. *)
Lemma mask_inv (SST : TimeArray) (m : DataArray2 bool) :
  mask SST = Ok m →
  0 < ntime SST ∧ t_nlat SST `mod` 5 = 0 ∧ t_nlon SST `mod` 5 = 0 ∧
  nlat m = xr.slice_len 290 380 (t_nlat SST `div` 5) ∧
  nlon m = xr.slice_len 50 220 (t_nlon SST `div` 5) ∧
  ∀ i j, ∃ q,
    (q == nonmissing_fraction (at_time SST 0) (290 + i) (50 + j))%Q ∧
    at2 m i j = Qlt_bool 0.2 q.
Proof.
  intros Hm.
  assert (0 < ntime SST ∧ t_nlat SST `mod` 5 = 0 ∧ t_nlon SST `mod` 5 = 0)
    as (Ht & Hlat & Hlon) by (apply mask_cases; eauto).
  rewrite (mask_ok SST Ht Hlat Hlon) in Hm. apply Ok_inj in Hm. subst m.
  refine (conj Ht (conj Hlat (conj Hlon (conj eq_refl (conj eq_refl _))))).
  intros i j. cbn [at2].
  destruct (mask_mean_fraction (at_time SST 0) (290 + i) (50 + j)) as (q & -> & Hq).
  eauto.
Qed.

Lemma fraction_exceeds_iff (n : nat) :
  (0.2 < inject_Z (Z.of_nat n) / 25)%Q ↔ 6 ≤ n.
Proof.
  unfold Qdiv. change (/ 25)%Q with (1 # 25)%Q.
  split.
  - intros Hlt. assert (inject_Z 5 < inject_Z (Z.of_nat n))%Q as Hz.
    { change (inject_Z 5) with 5%Q. lra. }
    rewrite <- Zlt_Qlt in Hz. lia.
  - intros Hn. assert (inject_Z 5 < inject_Z (Z.of_nat n))%Q as Hz.
    { rewrite <- Zlt_Qlt. lia. }
    change (inject_Z 5) with 5%Q in Hz. lra.
Qed.

Lemma mask_cell_count (SST : TimeArray) (m : DataArray2 bool) (i j : nat) :
  mask SST = Ok m →
  (at2 m i j = true ↔ 6 ≤ nonmissing_count (at_time SST 0) (290 + i) (50 + j)).
Proof.
  intros Hm. destruct (mask_inv SST m Hm) as (_ & _ & _ & _ & _ & Hcell).
  destruct (Hcell i j) as (q & Hq & ->).
  rewrite Qlt_bool_iff, Hq. apply fraction_exceeds_iff.
Qed.

(** X5. The threshold in samples: a cell of the mask is valid exactly when
    at least 6 of the 25 source samples of its window are present in the
    first snapshot. *)
Theorem mask_six_of_25 (SST : TimeArray) (m : DataArray2 bool) (i j : nat) :
  mask SST = Ok m →
  (at2 m i j = true ↔ 6 ≤ nonmissing_count (at_time SST 0) (290 + i) (50 + j)).
Proof. apply mask_cell_count. Qed.

Lemma mask_six_of_25_witness :
  ∃ m, mask SST_sample = Ok m ∧
       (at2 m 0 10 = true ↔
        6 ≤ nonmissing_count (at_time SST_sample 0) (290 + 0) (50 + 10)).
Proof.
  eexists. split; [reflexivity|].
  apply (mask_six_of_25 SST_sample). reflexivity.
Defined.

Lemma window_count_mono {A} (P Q' : A → Prop) `{∀ x, Decision (P x)}
    `{∀ x, Decision (Q' x)} w1 w2 (f g : nat → nat → A) I J :
  (∀ a b, P (f a b) → Q' (g a b)) →
  length (filter P (xr.window w1 w2 f I J)) ≤ length (filter Q' (xr.window w1 w2 g I J)).
Proof.
  intros Hfg. unfold xr.window.
  induction (seq 0 w1) as [|di l1 IH]; [done|].
  rewrite !bind_cons, !filter_app, !length_app.
  apply Nat.add_le_mono; [|exact IH]. clear IH.
  induction (seq 0 w2) as [|dj l2 IH2]; [done|].
  rewrite !bind_cons, !filter_app, !length_app.
  apply Nat.add_le_mono; [|exact IH2].
  rewrite !filter_cons, !filter_nil.
  destruct (decide (P (f (I * w1 + di) (J * w2 + dj)))) as [Hp|Hp].
  - rewrite decide_True by auto. done.
  - destruct (decide (Q' (g (I * w1 + di) (J * w2 + dj)))); cbn; lia.
Qed.

(** X6. Only the pattern of missing samples of the first snapshot matters
    to the mask, not the sample values: two source arrays of the same
    shape whose first snapshots have samples missing at the same places
    get the same mask. *)
Theorem mask_missingness_only (SST SST' : TimeArray) :
  ntime SST = ntime SST' → t_nlat SST = t_nlat SST' → t_nlon SST = t_nlon SST' →
  (∀ i j, is_Some (at_time SST 0 i j) ↔ is_Some (at_time SST' 0 i j)) →
  same_mask (mask SST) (mask SST').
Proof.
  intros Hn Hlat Hlon H0. unfold mask, xr.isel_time0. rewrite <- Hn.
  destruct (decide (0 < ntime SST)); [|reflexivity].
  cbn [mbind result_bind]. unfold xr.coarsen2.
  cbn [nlat nlon xr.astype_int xr.notnull xr.map2]. rewrite <- Hlat, <- Hlon.
  destruct (xr.exact 5 (t_nlat SST) && xr.exact 5 (t_nlon SST)); [|reflexivity].
  cbn [mbind result_bind mret result_ret same_mask].
  split; [done|]. split; [done|]. intros i j. cbn [xr.isel2 xr.gt xr.map2 at2].
  erewrite window_ext; [reflexivity|].
  intros a b. cbn [xr.astype_int xr.notnull xr.map2 at2].
  specialize (H0 a b).
  destruct (at_time SST 0 a b), (at_time SST' 0 a b); try done.
  - destruct H0 as [H0 _]. by destruct H0 as [? ?]; [eauto|].
  - destruct H0 as [_ H0]. by destruct H0 as [? ?]; [eauto|].
Qed.

Lemma mask_missingness_only_witness :
  same_mask (mask SST_sample)
    (mask (mkTimeArray 2 [2] 2400 3600
             (λ t i j, match t with
                       | 0 => if (i <? 1451) || (j <? 300) then Some 0%Q else None
                       | _ => Some 1%Q
                       end))).
Proof.
  apply mask_missingness_only; [reflexivity..|].
  intros i j. cbn [at_time SST_sample].
  destruct ((i <? 1451) || (j <? 300)); split; intros [? ?]; eauto; discriminate.
Defined.

(** X7. The mask is monotone in the data: if every sample present in the
    first snapshot of one array is also present in that of another array
    of the same shape, every cell valid for the first is valid for the
    second. *)
Theorem mask_monotone (SST SST' : TimeArray) (m : DataArray2 bool) :
  ntime SST = ntime SST' → t_nlat SST = t_nlat SST' → t_nlon SST = t_nlon SST' →
  (∀ i j, is_Some (at_time SST 0 i j) → is_Some (at_time SST' 0 i j)) →
  mask SST = Ok m →
  ∃ m', mask SST' = Ok m' ∧ ∀ i j, at2 m i j = true → at2 m' i j = true.
Proof.
  intros Hn Hlat Hlon H0 Hm.
  destruct (mask_inv SST m Hm) as (Ht & Hl1 & Hl2 & _).
  assert (∃ m', mask SST' = Ok m') as [m' Hm'].
  { apply mask_cases. rewrite <- Hn, <- Hlat, <- Hlon. done. }
  exists m'. split; [done|]. intros i j.
  rewrite (mask_cell_count SST m i j Hm), (mask_cell_count SST' m' i j Hm').
  intros Hcount. etrans; [exact Hcount|].
  unfold nonmissing_count. by apply window_count_mono.
Qed.

Lemma mask_monotone_witness :
  ∃ m m',
    mask SST_sample = Ok m ∧
    mask (mkTimeArray 2 [2] 2400 3600
            (λ t i j, match t with
                      | 0 => if (i <? 1460) || (j <? 300) then Some 15%Q else None
                      | _ => None
                      end)) = Ok m' ∧
    ∀ i j, at2 m i j = true → at2 m' i j = true.
Proof.
  eexists.
  edestruct (mask_monotone SST_sample
    (mkTimeArray 2 [2] 2400 3600
       (λ t i j, match t with
                 | 0 => if (i <? 1460) || (j <? 300) then Some 15%Q else None
                 | _ => None
                 end))) as (m' & Hm' & Hmono);
    [reflexivity | reflexivity | reflexivity | | reflexivity
    | exists m'; split; [reflexivity|]; split; [exact Hm'|exact Hmono] ].
  intros i j. cbn [at_time SST_sample].
  destruct (j <? 300); [rewrite !orb_true_r; done|]. rewrite !orb_false_r.
  destruct (Nat.ltb_spec i 1451) as [Hi|Hi]; [|by intros [? ?]].
  destruct (Nat.ltb_spec i 1460); [done|lia].
Defined.

(** X8. The region is cut out of the coarse grid by clipping, never by an
    error: a returned mask has at most 90 rows and 170 columns; it has all
    90 rows exactly when the source grid has at least 1900 rows, and no row
    at all exactly when the source grid has at most 1450 rows (likewise
    170 columns from 1100 source columns on, none up to 250). *)
Theorem mask_region_shape (SST : TimeArray) (m : DataArray2 bool) :
  mask SST = Ok m →
  nlat m ≤ 90 ∧ nlon m ≤ 170 ∧
  (nlat m = 90 ↔ 1900 ≤ t_nlat SST) ∧ (nlat m = 0 ↔ t_nlat SST ≤ 1450) ∧
  (nlon m = 170 ↔ 1100 ≤ t_nlon SST) ∧ (nlon m = 0 ↔ t_nlon SST ≤ 250).
Proof.
  intros Hm. destruct (mask_inv SST m Hm) as (_ & Hlat & Hlon & -> & -> & _).
  unfold xr.slice_len.
  pose proof (Nat.div_mod_eq (t_nlat SST) 5).
  pose proof (Nat.div_mod_eq (t_nlon SST) 5). lia.
Qed.

Lemma mask_region_shape_witness :
  ∃ m, mask SST_sample = Ok m ∧
    nlat m ≤ 90 ∧ nlon m ≤ 170 ∧
    (nlat m = 90 ↔ 1900 ≤ t_nlat SST_sample) ∧ (nlat m = 0 ↔ t_nlat SST_sample ≤ 1450) ∧
    (nlon m = 170 ↔ 1100 ≤ t_nlon SST_sample) ∧ (nlon m = 0 ↔ t_nlon SST_sample ≤ 250).
Proof.
  eexists. split; [reflexivity|].
  apply (mask_region_shape SST_sample). reflexivity.
Defined.

(** ** The band table, further *)

Lemma Qle_bool_true (a b : Q) : (a <= b)%Q → Qle_bool a b = true.
Proof. apply Qle_bool_iff. Qed.

Lemma Qle_bool_false (a b : Q) : (b < a)%Q → Qle_bool a b = false.
Proof.
  intros Hlt. apply not_true_is_false. rewrite Qle_bool_iff. lra.
Qed.

(** Decide every comparison of the goal from the hypotheses. *)
Ltac decide_bounds :=
  repeat match goal with
         | |- context [Qle_bool ?a ?b] =>
             first [ rewrite (Qle_bool_true a b) by lra
                   | rewrite (Qle_bool_false a b) by lra ]
         end.

Ltac band_lookup :=
  intros; unfold bands_containing, bands, in_closed; band_bounds;
  rewrite !filter_cons, filter_nil; cbn [snd start stop];
  decide_bounds; reflexivity.

(** The bands that contain a frequency, region by region. *)
Lemma bands_containing_table (f : Q) :
  ((f < 1 / 3650)%Q → bands_containing f = []) ∧
  ((1 / 3650 <= f)%Q → (f <= 1 / 400)%Q → bands_containing f = ["> 1 year"]) ∧
  ((1 / 400 < f)%Q → (f < 1 / 370)%Q → bands_containing f = []) ∧
  ((1 / 370 <= f)%Q → (f < 1 / 360)%Q → bands_containing f = ["~ 1 year"]) ∧
  ((f == 1 / 360)%Q → bands_containing f = ["~ 1 year"; "100 days - 1 year"]) ∧
  ((1 / 360 < f)%Q → (f < 1 / 100)%Q → bands_containing f = ["100 days - 1 year"]) ∧
  ((f == 1 / 100)%Q → bands_containing f = ["100 days - 1 year"; "10 days - 100 days"]) ∧
  ((1 / 100 < f)%Q → (f < 1 / 10)%Q → bands_containing f = ["10 days - 100 days"]) ∧
  ((f == 1 / 10)%Q → bands_containing f = ["10 days - 100 days"; "< 10 days"]) ∧
  ((1 / 10 < f)%Q → bands_containing f = ["< 10 days"]).
Proof. repeat split; band_lookup. Qed.

Lemma band_regions (f : Q) :
  (f < 1 / 3650)%Q ∨ ((1 / 3650 <= f)%Q ∧ (f <= 1 / 400)%Q) ∨
  ((1 / 400 < f)%Q ∧ (f < 1 / 370)%Q) ∨ ((1 / 370 <= f)%Q ∧ (f < 1 / 360)%Q) ∨
  (f == 1 / 360)%Q ∨ ((1 / 360 < f)%Q ∧ (f < 1 / 100)%Q) ∨
  (f == 1 / 100)%Q ∨ ((1 / 100 < f)%Q ∧ (f < 1 / 10)%Q) ∨
  (f == 1 / 10)%Q ∨ (1 / 10 < f)%Q.
Proof.
  band_bounds.
  destruct (Qlt_le_dec f (1 # 3650)); [by left|right].
  destruct (Qlt_le_dec (1 # 400) f); [right|by left].
  destruct (Qlt_le_dec f (1 # 370)); [by left|right].
  destruct (Qlt_le_dec f (1 # 360)); [by left|right].
  destruct (Qlt_le_dec (1 # 360) f); [right|left; lra].
  destruct (Qlt_le_dec f (1 # 100)); [by left|right].
  destruct (Qlt_le_dec (1 # 100) f); [right|left; lra].
  destruct (Qlt_le_dec f (1 # 10)); [by left|right].
  destruct (Qlt_le_dec (1 # 10) f); [by right|left; lra].
Qed.

(** Over an ascending axis a bin is selected by a slice exactly when its
    frequency lies between the bounds. *)
Lemma elem_of_sel_freq_time {A} (s : slice) (T : Spectrum A) (f : Q) :
  pd.is_monotonic_increasing (freq_time T) = true →
  f ∈ freq_time (sel_freq_time s T) ↔ f ∈ freq_time T ∧ in_closed s f = true.
Proof.
  intros Hm. rewrite sel_freq_time_closed by done.
  rewrite list_elem_of_filter, Is_true_true. tauto.
Qed.

(** X9. Adjacent bands share their bound: no frequency lies in more than
    two bands, and a frequency lies in two bands exactly when it is 1/360,
    1/100 or 1/10 cycles per day.  Over an ascending axis every band that
    contains the frequency of a bin selects the bin, so a bin at one of
    these three frequencies enters two band averages. *)
Theorem bands_overlap (f : Q) :
  length (bands_containing f) ≤ 2 ∧
  (length (bands_containing f) = 2 ↔
   (f == 1 / 360)%Q ∨ (f == 1 / 100)%Q ∨ (f == 1 / 10)%Q) ∧
  ∀ T : Spectrum sample,
    pd.is_monotonic_increasing (freq_time T) = true → f ∈ freq_time T →
    Forall (λ band : string * slice,
              band.1 ∈ bands_containing f → f ∈ freq_time (sel_freq_time band.2 T))
           bands.
Proof.
  split; [|split].
  - destruct (bands_containing_table f) as (T1&T2&T3&T4&T5&T6&T7&T8&T9&T10).
    destruct (band_regions f) as [H|[[H H']|[[H H']|[[H H']|[H|[[H H']|[H|[[H H']|[H|H]]]]]]]]];
      first [rewrite T1 by done | rewrite T2 by done | rewrite T3 by done
            | rewrite T4 by done | rewrite T5 by done | rewrite T6 by done
            | rewrite T7 by done | rewrite T8 by done | rewrite T9 by done
            | rewrite T10 by done]; cbn; lia.
  - destruct (bands_containing_table f) as (T1&T2&T3&T4&T5&T6&T7&T8&T9&T10).
    destruct (band_regions f) as [H|[[H H']|[[H H']|[[H H']|[H|[[H H']|[H|[[H H']|[H|H]]]]]]]]];
      first [rewrite T1 by done | rewrite T2 by done | rewrite T3 by done
            | rewrite T4 by done | rewrite T5 by done | rewrite T6 by done
            | rewrite T7 by done | rewrite T8 by done | rewrite T9 by done
            | rewrite T10 by done]; cbn [length]; band_bounds;
      (split; [intros Hlen; first [discriminate Hlen | tauto]
              | intros [Hf|[Hf|Hf]]; first [reflexivity | lra]]).
  - intros T Hm Hin. unfold bands.
    repeat constructor; cbn [fst snd]; intros Hname;
      apply elem_of_sel_freq_time; (try done); (split; [done|]);
      unfold bands_containing in Hname;
      apply list_elem_of_fmap in Hname as ([name s] & Hn & Hb);
      apply list_elem_of_filter in Hb as [Hc Hb]; cbn [fst snd] in *; subst name;
      unfold bands in Hb;
      repeat (apply elem_of_cons in Hb as [Hb|Hb];
              [first [by injection Hb as <-; apply Is_true_true | discriminate Hb]|]);
      by apply elem_of_nil in Hb.
Qed.

(** X10. What the band table covers: a frequency lies in some band exactly
    when it is between 1/3650 and 1/400 cycles per day or at least 1/370.
    Frequencies below 1/3650, among them the zero frequency of the time
    mean, lie in no band. *)
Theorem bands_coverage (f : Q) :
  (bands_containing f ≠ [] ↔
   ((1 / 3650 <= f)%Q ∧ (f <= 1 / 400)%Q) ∨ (1 / 370 <= f)%Q) ∧
  bands_containing 0 = [].
Proof.
  split; [|reflexivity].
  destruct (bands_containing_table f) as (T1&T2&T3&T4&T5&T6&T7&T8&T9&T10).
  destruct (band_regions f) as [H|[[H H']|[[H H']|[[H H']|[H|[[H H']|[H|[[H H']|[H|H]]]]]]]]];
    first [rewrite T1 by done | rewrite T2 by done | rewrite T3 by done
          | rewrite T4 by done | rewrite T5 by done | rewrite T6 by done
          | rewrite T7 by done | rewrite T8 by done | rewrite T9 by done
          | rewrite T10 by done]; band_bounds;
    (split; [intros Hne; first [by destruct Hne | left; split; lra | right; lra]
            | intros [[Ha Hb]|Ha]; first [discriminate | lra]]).
Qed.

(** ** Means *)

Lemma present_nil_iff (l : list sample) : present l = [] ↔ Forall (λ v, v = None) l.
Proof.
  unfold present. induction l as [|[x|] l IH]; cbn.
  - split; [constructor|done].
  - split; [done|]. intros Hall. by inversion Hall.
  - rewrite IH. split; [by constructor|]. intros Hall. by inversion Hall.
Qed.

Lemma nanmean_None_iff (l : list sample) : nanmean l = None ↔ Forall (λ v, v = None) l.
Proof.
  rewrite <- present_nil_iff. unfold nanmean, mean.
  destruct (present l); split; done.
Qed.

Lemma Forall_fmap_filter {A B} (P : B → Prop) (R : A → Prop) `{∀ x, Decision (R x)}
    (f : A → B) (l : list A) :
  Forall P (f <$> filter R l) ↔ Forall (λ x, R x → P (f x)) l.
Proof.
  induction l as [|x l IH]; [split; constructor|].
  rewrite filter_cons. destruct (decide (R x)) as [Hr|Hr].
  - rewrite fmap_cons, !Forall_cons, IH. tauto.
  - rewrite Forall_cons, IH. tauto.
Qed.

(** ** Band averages, further *)

(** X11. Where a band map has no data: over an ascending axis the band
    average at a point is NaN exactly when every bin of the band has a NaN
    sample at that point; in particular when the band matches no bin of
    the axis, and at every point whose samples are all NaN (a masked
    cell). *)
Theorem band_average_nan_iff (s : slice) (T : Spectrum sample) (i j : nat) :
  pd.is_monotonic_increasing (freq_time T) = true →
  (at2 (band_average s T) i j = None ↔
   Forall (λ b : Q * sample, in_closed s b.1 = true → b.2 = None) (bins T i j)) ∧
  ((∀ f, f ∈ freq_time T → in_closed s f = false) →
   at2 (band_average s T) i j = None) ∧
  ((∀ k, at_freq T k i j = None) → at2 (band_average s T) i j = None).
Proof.
  intros Hm.
  assert (Hiff : at2 (band_average s T) i j = None ↔
    Forall (λ b : Q * sample, in_closed s b.1 = true → b.2 = None) (bins T i j)).
  { unfold band_average, mean_freq_time. cbn [at2].
    rewrite column_sel_closed by done. rewrite nanmean_None_iff.
    rewrite (Forall_fmap_filter (λ v, v = None) (λ b : Q * sample, in_closed s b.1) snd).
    apply Forall_iff. intros [f v]. cbn [fst snd]. by rewrite Is_true_true. }
  split; [exact Hiff|]. split.
  - intros Hnone. apply Hiff. apply Forall_forall. intros [f v] Hin Hc.
    cbn [fst snd] in *. unfold bins in Hin.
    apply elem_of_zip_l in Hin. rewrite (Hnone f Hin) in Hc. discriminate.
  - intros Hnan. apply Hiff. apply Forall_forall. intros [f v] Hin _.
    cbn [snd]. unfold bins, column in Hin. apply elem_of_zip_r in Hin.
    apply list_elem_of_fmap in Hin as (k & -> & _). apply Hnan.
Qed.

Lemma band_average_nan_iff_witness :
  (at2 (band_average (Slice (Some (1 / 5)%Q) None) T_sample) 0 0 = None ↔
   Forall (λ b : Q * sample, in_closed (Slice (Some (1 / 5)%Q) None) b.1 = true → b.2 = None)
     (bins T_sample 0 0)) ∧
  ((∀ f, f ∈ freq_time T_sample → in_closed (Slice (Some (1 / 5)%Q) None) f = false) →
   at2 (band_average (Slice (Some (1 / 5)%Q) None) T_sample) 0 0 = None) ∧
  ((∀ k, at_freq T_sample k 0 0 = None) →
   at2 (band_average (Slice (Some (1 / 5)%Q) None) T_sample) 0 0 = None).
Proof.
  apply (band_average_nan_iff (Slice (Some (1 / 5)%Q) None) T_sample 0 0).
  reflexivity.
Defined.

(** ** The area average of cell 44 *)

Lemma cells_field_cells {A} (T : Spectrum A) (k : nat) :
  cells T k = (λ c, at_freq T k c.1 c.2) <$> field_cells (s_nlat T) (s_nlon T).
Proof.
  unfold cells, field_cells.
  assert (Hrow : ∀ i (l2 : list nat),
    (l2 ≫= λ j, [at_freq T k i j])
    = (λ c : nat * nat, at_freq T k c.1 c.2) <$> (l2 ≫= λ j, [(i, j)])).
  { intros i l2. induction l2 as [|j l2 IH2]; [done|].
    by rewrite !bind_cons, fmap_app, IH2. }
  generalize (seq 0 (s_nlat T)). intros l1.
  induction l1 as [|i l1 IH]; [done|].
  by rewrite !bind_cons, fmap_app, IH, Hrow.
Qed.

Lemma present_masked {A} (valid : A → bool) (v : A → sample) (l : list A) :
  present ((λ c, if valid c then v c else None) <$> l)
  = present (v <$> filter (λ c, valid c) l).
Proof.
  unfold present. induction l as [|c l IH]; [done|].
  rewrite filter_cons. cbn [fmap list_fmap omap list_omap].
  destruct (valid c).
  - rewrite decide_True by done. cbn [fmap list_fmap omap list_omap].
    fold (omap id ((λ c, if valid c then v c else None) <$> l)).
    fold (omap id (v <$> filter (λ c, valid c) l)).
    by rewrite IH.
  - rewrite decide_False by (intros []). cbn [id].
    fold (omap id ((λ c, if valid c then v c else None) <$> l)).
    exact IH.
Qed.

(** X13. The area-average spectrum of the re-masked array averages the
    valid cells only: for every frequency bin it is the unweighted mean of
    the defined samples of the cells the mask marks valid, and it is NaN
    when the mask marks no cell valid. *)
Theorem area_average_valid_cells (T : Spectrum sample) (m : DataArray2 bool)
    (out : Spectrum sample) :
  xr.where_ T m = Ok out →
  mean_nlon_nlat out
  = (λ k, nanmean ((λ c, at_freq T k c.1 c.2)
                   <$> filter (λ c, at2 m c.1 c.2) (field_cells (s_nlat T) (s_nlon T))))
    <$> seq 0 (length (freq_time T)) ∧
  ((∀ i j, at2 m i j = false) →
   mean_nlon_nlat out = (λ _, None) <$> seq 0 (length (freq_time T))).
Proof.
  unfold xr.where_. destruct (bool_decide _); [|discriminate].
  intros Hout. apply Ok_inj in Hout. subst out.
  assert (Hk : ∀ k,
    nanmean (cells (mkSpectrum (freq_time T) (s_nlat T) (s_nlon T)
                      (λ k i j, if at2 m i j then at_freq T k i j else None)) k)
    = nanmean ((λ c, at_freq T k c.1 c.2)
               <$> filter (λ c, at2 m c.1 c.2) (field_cells (s_nlat T) (s_nlon T)))).
  { intros k. rewrite cells_field_cells. cbn [s_nlat s_nlon at_freq]. unfold nanmean.
    by rewrite (present_masked (λ c, at2 m c.1 c.2) (λ c, at_freq T k c.1 c.2)). }
  unfold mean_nlon_nlat. cbn [freq_time]. split.
  - apply list_fmap_ext. intros _ k _. apply Hk.
  - intros Hnone.
    assert (Hnil : ∀ l : list (nat * nat), filter (λ c, at2 m c.1 c.2) l = []).
    { intros l. induction l as [|c l IH]; [done|].
      rewrite filter_cons, decide_False; [done|]. rewrite Hnone. intros []. }
    apply list_fmap_ext. intros _ k _. by rewrite Hk, Hnil.
Qed.

Lemma area_average_valid_cells_witness :
  ∃ out,
    xr.where_ T_sample (mkDataArray2 90 170 (λ i j, j <? 10)) = Ok out ∧
    mean_nlon_nlat out
    = (λ k, nanmean ((λ c, at_freq T_sample k c.1 c.2)
                     <$> filter (λ c : nat * nat, c.2 <? 10) (field_cells 90 170)))
      <$> seq 0 4.
Proof.
  eexists. split; [reflexivity|].
  apply (area_average_valid_cells T_sample (mkDataArray2 90 170 (λ i j, j <? 10))).
  reflexivity.
Defined.

(** ** The coarsened snapshot of cell 10 *)

Lemma coarsened_snapshot_inv (SST : TimeArray) (g : DataArray2 sample) :
  coarsened_snapshot SST = Ok g →
  ∀ I J, at2 g I J = nanmean (xr.window 5 5 (at_time SST 0) I J).
Proof.
  unfold coarsened_snapshot, xr.isel_time0.
  destruct (decide (0 < ntime SST)); [|discriminate].
  cbn [mbind result_bind]. unfold xr.coarsen2.
  destruct (_ && _); [|discriminate].
  intros Hg. apply Ok_inj in Hg. by subst g.
Qed.

Lemma filter_is_Some_nil_iff (l : list sample) :
  length (filter (λ v : sample, is_Some v) l) = 0 ↔ Forall (λ v, v = None) l.
Proof.
  induction l as [|[x|] l IH].
  - split; [constructor|done].
  - rewrite filter_cons, decide_True by eauto. split; [done|].
    intros Hall. by inversion Hall.
  - rewrite filter_cons, decide_False by (by intros [? ?]).
    rewrite IH. split; [by constructor|]. intros Hall. by inversion Hall.
Qed.

(** X14. The coarsened snapshot has no data in a cell exactly when all 25
    source samples of its window are missing in the first snapshot; every
    cell the mask marks valid therefore has a defined coarsened value. *)
Theorem coarsened_snapshot_nan_iff (SST : TimeArray) (g : DataArray2 sample) :
  coarsened_snapshot SST = Ok g →
  (∀ I J, at2 g I J = None ↔ nonmissing_count (at_time SST 0) I J = 0) ∧
  (∀ m i j, mask SST = Ok m → at2 m i j = true → is_Some (at2 g (290 + i) (50 + j))).
Proof.
  intros Hg. pose proof (coarsened_snapshot_inv SST g Hg) as Hcell.
  assert (Hiff : ∀ I J, at2 g I J = None ↔ nonmissing_count (at_time SST 0) I J = 0).
  { intros I J. rewrite Hcell, nanmean_None_iff. unfold nonmissing_count.
    by rewrite filter_is_Some_nil_iff. }
  split; [exact Hiff|].
  intros m i j Hm Hvalid. apply (mask_cell_count SST m i j Hm) in Hvalid.
  destruct (at2 g (290 + i) (50 + j)) eqn:Hv; [eauto|].
  apply Hiff in Hv. lia.
Qed.

Lemma coarsened_snapshot_nan_iff_witness :
  ∃ g, coarsened_snapshot SST_sample = Ok g ∧
    (∀ I J, at2 g I J = None ↔ nonmissing_count (at_time SST_sample 0) I J = 0) ∧
    (∀ m i j, mask SST_sample = Ok m → at2 m i j = true →
              is_Some (at2 g (290 + i) (50 + j))).
Proof.
  eexists. split; [reflexivity|].
  apply (coarsened_snapshot_nan_iff SST_sample). reflexivity.
Defined.

(** ** The transform input and the whole workflow *)

Section workflow_properties.

Variable xrft_transform : string → string → bool → TimeArray → Spectrum complex.

(** X15. What [take_power_spectrum] hands to the transform: an array of
    the shape of its argument, with every present sample unchanged and 0
    in place of every missing one; how the argument was chunked along time
    makes no difference to the result. *)
Theorem take_power_spectrum_input (var : TimeArray) (real_arg : string) :
  ∃ filled,
    take_power_spectrum xrft_transform var real_arg
      = Ok (xrft_transform real_arg "linear" true filled) ∧
    ntime filled = ntime var ∧ t_nlat filled = t_nlat var ∧ t_nlon filled = t_nlon var ∧
    (∀ t i j, at_time filled t i j = Some (default 0%Q (at_time var t i j))) ∧
    ∀ other_chunks,
      take_power_spectrum xrft_transform
        (mkTimeArray (ntime var) other_chunks (t_nlat var) (t_nlon var) (at_time var))
        real_arg
      = take_power_spectrum xrft_transform var real_arg.
Proof.
  exists (fillna 0 (chunk_time_None var)).
  split; [apply take_power_spectrum_ok|].
  split; [done|]. split; [done|]. split; [done|]. split.
  - intros t i j. cbn [fillna chunk_time_None at_time]. by destruct (at_time var t i j).
  - intros other_chunks. by rewrite !take_power_spectrum_ok.
Qed.

Lemma T_power_spectrum_ok (Txr_rechunked : TimeArray) :
  s_nlat (xrft_transform "time" "linear" true
            (fillna 0 (chunk_time_None Txr_rechunked))) `mod` 5 = 0 →
  s_nlon (xrft_transform "time" "linear" true
            (fillna 0 (chunk_time_None Txr_rechunked))) `mod` 5 = 0 →
  T_power_spectrum xrft_transform Txr_rechunked
  = xr.coarsen3 5 5 nanmean
      (real (xrft_transform "time" "linear" true
               (fillna 0 (chunk_time_None Txr_rechunked)))) ∧
  ∃ T, T_power_spectrum xrft_transform Txr_rechunked = Ok T ∧
    s_nlat T = s_nlat (xrft_transform "time" "linear" true
                         (fillna 0 (chunk_time_None Txr_rechunked))) `div` 5 ∧
    s_nlon T = s_nlon (xrft_transform "time" "linear" true
                         (fillna 0 (chunk_time_None Txr_rechunked))) `div` 5 ∧
    ∀ k I J, at_freq T k I J
             = mean (re <$> xr.window 5 5
                       (at_freq (xrft_transform "time" "linear" true
                                   (fillna 0 (chunk_time_None Txr_rechunked))) k) I J).
Proof.
  intros Hlat Hlon.
  assert (Heq : T_power_spectrum xrft_transform Txr_rechunked
    = xr.coarsen3 5 5 nanmean
        (real (xrft_transform "time" "linear" true
                 (fillna 0 (chunk_time_None Txr_rechunked))))).
  { unfold T_power_spectrum, T_calc_power_spectrum. by rewrite take_power_spectrum_ok. }
  split; [exact Heq|]. rewrite Heq.
  unfold xr.coarsen3, xr.exact. cbn [real s_nlat s_nlon].
  rewrite !bool_decide_eq_true_2 by (split; [lia|done]).
  eexists. split; [reflexivity|]. cbn [s_nlat s_nlon at_freq].
  split; [done|]. split; [done|]. intros k I J. cbn [at_freq real].
  rewrite (window_fmap (λ z, Some (re z))). unfold nanmean.
  by rewrite (list_fmap_compose re Some), present_Some.
Qed.

(** X16. The workflow end to end (cells 30, 32 and 39): when the source
    grid is a multiple of 5 in both extents, its time axis is not empty
    and the transform keeps the spatial shape, the re-masked regional
    spectrum is computed, and a sample of it is NaN exactly when the mask
    marks the cell invalid; in a valid cell it is the 5 x 5 block mean of
    the real parts of the transform output. *)
Theorem workflow_nan_iff_masked (Txr_rechunked SST : TimeArray) :
  0 < ntime SST → t_nlat SST `mod` 5 = 0 → t_nlon SST `mod` 5 = 0 →
  s_nlat (xrft_transform "time" "linear" true
            (fillna 0 (chunk_time_None Txr_rechunked))) = t_nlat SST →
  s_nlon (xrft_transform "time" "linear" true
            (fillna 0 (chunk_time_None Txr_rechunked))) = t_nlon SST →
  ∃ m out,
    mask SST = Ok m ∧
    T_power_spectrum_masked xrft_transform Txr_rechunked SST = Ok out ∧
    ∀ k i j,
      (at_freq out k i j = None ↔ at2 m i j = false) ∧
      (at2 m i j = true →
       at_freq out k i j
       = mean (re <$> xr.window 5 5
                 (at_freq (xrft_transform "time" "linear" true
                             (fillna 0 (chunk_time_None Txr_rechunked))) k)
                 (290 + i) (50 + j))).
Proof.
  intros Ht Hlat Hlon Hs1 Hs2.
  destruct (T_power_spectrum_ok Txr_rechunked) as (_ & T & HT & HT1 & HT2 & Hval);
    [by rewrite Hs1 | by rewrite Hs2 |].
  pose proof (mask_ok SST Ht Hlat Hlon) as Hm.
  eexists _, _. split; [exact Hm|]. split.
  { unfold T_power_spectrum_masked, T_power_spectrum_region. rewrite HT.
    cbn [mbind result_bind mret result_ret]. unfold remask. rewrite Hm.
    cbn [mbind result_bind]. unfold xr.where_. cbn [nlat nlon xr.isel3 s_nlat s_nlon].
    rewrite bool_decide_eq_true_2; [reflexivity|].
    cbn [region_nlat region_nlon fst snd]. by rewrite HT1, HT2, Hs1, Hs2. }
  intros k i j. cbn [at_freq at2 xr.isel3 region_nlat region_nlon fst snd].
  set (valid := match mean_int _ with Some q => Qlt_bool 0.2 q | None => false end).
  rewrite Hval.
  assert (is_Some (mean (re <$> xr.window 5 5
            (at_freq (xrft_transform "time" "linear" true
                        (fillna 0 (chunk_time_None Txr_rechunked))) k)
            (290 + i) (50 + j)))) as [q Hq].
  { rewrite mean_nonempty; [eauto|]. intros Hnil.
    apply (f_equal length) in Hnil. rewrite length_fmap, window_length in Hnil.
    discriminate. }
  rewrite Hq. destruct valid; split; done.
Qed.

End workflow_properties.

Lemma workflow_nan_iff_masked_witness :
  ∃ m out,
    mask SST_sample_later = Ok m ∧
    T_power_spectrum_masked two_point_transform SST_sample_later SST_sample_later = Ok out ∧
    ∀ k i j,
      (at_freq out k i j = None ↔ at2 m i j = false) ∧
      (at2 m i j = true →
       at_freq out k i j
       = mean (re <$> xr.window 5 5
                 (at_freq (two_point_transform "time" "linear" true
                             (fillna 0 (chunk_time_None SST_sample_later))) k)
                 (290 + i) (50 + j))).
Proof.
  apply (workflow_nan_iff_masked two_point_transform SST_sample_later SST_sample_later);
    [cbn; lia | reflexivity..].
Defined.

(** ** The ten-year subset of cell 26 *)

Lemma sum_list_positive (l : list nat) : sum_list (filter (λ c, 0 < c) l) = sum_list l.
Proof.
  assert (Hcons : ∀ x (l : list nat), sum_list (x :: l) = x + sum_list l) by done.
  induction l as [|c l IH]; [done|].
  rewrite filter_cons. destruct (decide (0 < c)); rewrite !Hcons; lia.
Qed.

Lemma overlaps_sum (a b o : nat) (cs : list nat) :
  sum_list (da.overlaps a b o cs) = (o + sum_list cs) `min` b - o `max` a.
Proof.
  assert (Hcons : ∀ x (l : list nat), sum_list (x :: l) = x + sum_list l) by done.
  revert o. induction cs as [|c cs IH]; intros o; cbn [da.overlaps].
  - cbn. lia.
  - rewrite !Hcons, IH. lia.
Qed.

Lemma slice_chunks_sum (a b : nat) (cs : list nat) :
  sum_list (da.slice_chunks a b cs) = xr.slice_len a b (sum_list cs).
Proof.
  unfold da.slice_chunks, xr.slice_len.
  pose proof (sum_list_positive (da.overlaps a b 0 cs)) as Hsum.
  rewrite overlaps_sum in Hsum.
  destruct (filter _ _) as [|c l]; [cbn in *; lia|rewrite Hsum; lia].
Qed.

Lemma slice_chunks_blocks (a b : nat) (cs : list nat) :
  da.slice_chunks a b cs = [0] ∨ Forall (λ c, 0 < c) (da.slice_chunks a b cs).
Proof.
  unfold da.slice_chunks.
  destruct (filter _ _) as [|c l] eqn:Hf; [by left|right].
  rewrite <- Hf. apply Forall_forall. intros x Hx.
  by apply list_elem_of_filter in Hx as [? _].
Qed.

(** X17. Slicing the time axis keeps the dask array consistent: if the
    blocks of the array add up to its length, the blocks of [x[a:b]] add
    up to the length of the subset; no block of the subset is empty unless
    the subset is one empty block; and every index of the subset reads a
    sample inside the array. *)
Theorem getitem_time_blocks (a b : nat) (x : TimeArray) :
  sum_list (time_chunks x) = ntime x →
  sum_list (time_chunks (da.getitem_time a b x)) = ntime (da.getitem_time a b x) ∧
  (time_chunks (da.getitem_time a b x) = [0] ∨
   Forall (λ c, 0 < c) (time_chunks (da.getitem_time a b x))) ∧
  ntime (da.getitem_time a b x) ≤ ntime x ∧
  ∀ t, t < ntime (da.getitem_time a b x) →
       a + t < ntime x ∧ a + t < b ∧
       ∀ i j, at_time (da.getitem_time a b x) t i j = at_time x (a + t) i j.
Proof.
  intros Hsum. cbn [da.getitem_time time_chunks ntime at_time].
  split; [by rewrite slice_chunks_sum, Hsum|].
  split; [apply slice_chunks_blocks|].
  unfold xr.slice_len. split; [lia|]. intros t Ht. split; [lia|]. split; [lia|done].
Qed.

Lemma getitem_time_blocks_witness :
  sum_list (time_chunks (da.getitem_time 1 4 Txr_sample))
    = ntime (da.getitem_time 1 4 Txr_sample) ∧
  (time_chunks (da.getitem_time 1 4 Txr_sample) = [0] ∨
   Forall (λ c, 0 < c) (time_chunks (da.getitem_time 1 4 Txr_sample))) ∧
  ntime (da.getitem_time 1 4 Txr_sample) ≤ ntime Txr_sample ∧
  ∀ t, t < ntime (da.getitem_time 1 4 Txr_sample) →
       1 + t < ntime Txr_sample ∧ 1 + t < 4 ∧
       ∀ i j, at_time (da.getitem_time 1 4 Txr_sample) t i j
              = at_time Txr_sample (1 + t) i j.
Proof.
  apply (getitem_time_blocks 1 4 Txr_sample). reflexivity.
Defined.

Lemma regular_chunks_sum (n c : nat) : 0 < c → sum_list (da.regular_chunks n c) = n.
Proof.
  intros Hc. unfold da.regular_chunks. destruct n as [|n]; [done|].
  rewrite sum_list_with_app, sum_list_replicate.
  pose proof (Nat.div_mod_eq (S n) c).
  destruct (Nat.eqb_spec (S n `mod` c) 0); cbn; lia.
Qed.

Lemma overlaps_beyond (a b o : nat) (cs : list nat) :
  b ≤ o → filter (λ c, 0 < c) (da.overlaps a b o cs) = [].
Proof.
  revert o. induction cs as [|c cs IH]; intros o Ho; [done|].
  cbn [da.overlaps]. rewrite filter_cons, decide_False by lia.
  apply IH. lia.
Qed.

(** X18. The ten-year subset of an array stored in five-year time chunks:
    when the stored array has chunks of 1825 days and at least 3650 days,
    the subset of cell 26 has 3650 days in two blocks of 1825, so its time
    axis is not a single block until [take_power_spectrum] rechunks it
    into one block of 3650. *)
Theorem ten_year_subset_blocks (T_rechunked : array3) :
  (chunks T_rechunked).1.1 = target_chunks.1.1 →
  3650 ≤ (shape T_rechunked).1.1 →
  ntime (Txr_rechunked T_rechunked) = 3650 ∧
  time_chunks (Txr_rechunked T_rechunked) = [1825; 1825] ∧
  time_chunks (Txr_rechunked T_rechunked) ≠ [ntime (Txr_rechunked T_rechunked)] ∧
  time_chunks (chunk_time_None (Txr_rechunked T_rechunked)) = [3650] ∧
  ∀ t i j, at_time (Txr_rechunked T_rechunked) t i j = elements T_rechunked t i j.
Proof.
  intros Hc Hn. change (target_chunks.1.1) with 1825 in Hc.
  unfold Txr_rechunked. change (365 * yr1) with 0. change (365 * yr2) with 3650.
  assert (Hlen : ntime (da.getitem_time 0 3650 (da.of_zarr T_rechunked)) = 3650).
  { cbn [da.getitem_time da.of_zarr ntime]. unfold xr.slice_len. lia. }
  assert (Hblocks : time_chunks (da.getitem_time 0 3650 (da.of_zarr T_rechunked))
                    = [1825; 1825]).
  { cbn [da.getitem_time da.of_zarr time_chunks]. rewrite Hc.
    assert (da.regular_chunks (shape T_rechunked).1.1 1825
            = replicate ((shape T_rechunked).1.1 `div` 1825) 1825
              ++ (if (shape T_rechunked).1.1 `mod` 1825 =? 0 then []
                  else [(shape T_rechunked).1.1 `mod` 1825])) as ->.
    { unfold da.regular_chunks. destruct ((shape T_rechunked).1.1); [lia|done]. }
    assert (2 ≤ (shape T_rechunked).1.1 `div` 1825) as Hq.
    { apply Nat.div_le_lower_bound; lia. }
    destruct ((shape T_rechunked).1.1 `div` 1825) as [|[|q]]; [lia..|].
    cbn [replicate app]. unfold da.slice_chunks. cbn [da.overlaps].
    rewrite !filter_cons.
    rewrite !decide_True by lia.
    rewrite overlaps_beyond by lia. f_equal; lia. }
  split; [exact Hlen|]. split; [exact Hblocks|].
  rewrite Hblocks, Hlen. split; [discriminate|]. split; [|done].
  cbn [chunk_time_None time_chunks]. by rewrite Hlen.
Qed.

Lemma ten_year_subset_blocks_witness :
  ntime (Txr_rechunked (mkArray3 (4000, 10, 10) target_chunks 4 (λ _ _ _, None))) = 3650 ∧
  time_chunks (Txr_rechunked (mkArray3 (4000, 10, 10) target_chunks 4 (λ _ _ _, None)))
    = [1825; 1825] ∧
  time_chunks (Txr_rechunked (mkArray3 (4000, 10, 10) target_chunks 4 (λ _ _ _, None)))
    ≠ [ntime (Txr_rechunked (mkArray3 (4000, 10, 10) target_chunks 4 (λ _ _ _, None)))] ∧
  time_chunks (chunk_time_None
                 (Txr_rechunked (mkArray3 (4000, 10, 10) target_chunks 4 (λ _ _ _, None))))
    = [3650] ∧
  ∀ t i j, at_time (Txr_rechunked (mkArray3 (4000, 10, 10) target_chunks 4 (λ _ _ _, None)))
             t i j = None.
Proof.
  apply (ten_year_subset_blocks (mkArray3 (4000, 10, 10) target_chunks 4 (λ _ _ _, None)));
    [reflexivity | cbn; lia].
Defined.

(** ** The store that cell 24 reads *)

Lemma write_frame (path path' : string) (meta : zmeta)
    (f : nat → nat → nat → sample) (m : bucket) (key : zkey) :
  path' ≠ path →
  zarr.write path meta f m !! (path', key) = m !! (path', key).
Proof.
  intros Hne. unfold zarr.write. rewrite lookup_insert_ne by congruence.
  induction (zarr.grid (z_shape meta) (z_chunks meta)) as [|idx l IH]; [done|].
  cbn [foldr]. unfold zarr.write_chunk at 1. by rewrite lookup_insert_ne by congruence.
Qed.

Lemma tmp_path_not_read (scratch_path : string) : tmp_path scratch_path ≠ target_path_read.
Proof.
  unfold tmp_path, target_path_read, varname. cbn [String.app].
  revert scratch_path.
  do 60 (intros [|? scratch_path]; [discriminate|];
         cbn [String.app]; intros [= _ H]; try discriminate H;
         revert scratch_path H).
Qed.

Section read_store.

Variable working_overhead : N.

(** X19. The rechunk cells never touch the store that cell 24 opens: they
    write under 'paigem-pangeo/...' and under the scratch path, cell 24
    reads 'pangeo-paigem/...'.  Whatever the source array, the budget, the
    scratch path and the outcome, every object of the store read by cell
    24 is as it was before; if no array was there, reading it after the
    rechunk still fails. *)
Theorem read_store_untouched (array : array3) (chunk_shape : nat * nat * nat)
    (budget : N) (scratch_path : string) (w : cloud) :
  target_path ≠ target_path_read ∧
  (∀ key,
     objects (rechunk_and_execute working_overhead array chunk_shape budget
                target_path (tmp_path scratch_path) w).2 !! (target_path_read, key)
     = objects w !! (target_path_read, key)) ∧
  (objects w !! (target_path_read, zarray) = None →
   dsa.from_zarr target_path_read
     (objects (rechunk_and_execute working_overhead array chunk_shape budget
                 target_path (tmp_path scratch_path) w).2)
   = Raise ArrayNotFoundError).
Proof.
  assert (Hne : target_path ≠ target_path_read) by discriminate.
  assert (Hframe : ∀ key,
     objects (rechunk_and_execute working_overhead array chunk_shape budget
                target_path (tmp_path scratch_path) w).2 !! (target_path_read, key)
     = objects w !! (target_path_read, key)).
  { intros key. unfold rechunk_and_execute, rechunker.rechunk.
    destruct (decide _); [|done].
    unfold rechunker.execute.
    cbn [rechunker.target_store rechunker.temp_store].
    destruct (zarr.contains_array (objects w) target_path); [done|].
    destruct (zarr.contains_array (<[_:=_]> (objects w)) _); cbn [snd objects].
    - by rewrite lookup_insert_ne by congruence.
    - rewrite !write_frame; [|intros Heq; by apply (tmp_path_not_read scratch_path)|done].
      by rewrite lookup_insert_ne by congruence. }
  split; [exact Hne|]. split; [exact Hframe|].
  intros Hnone. unfold dsa.from_zarr. by rewrite Hframe, Hnone.
Qed.

End read_store.

(** ** The bands on the ten-year daily axis *)

(** Comparisons between a bin frequency [k / 3650] and a bound of the
    table, reduced to integer arithmetic. *)
Ltac bin_bounds :=
  band_bounds;
  unfold Qlt, Qle, Qeq, Qdiv, Qmult, Qinv, inject_Z; cbn [Qnum Qden Z.mul Pos.mul];
  lia.

(** X20. Which bins each band map averages on the axis of a ten-year
    daily series, whose bin [k] has frequency k/3650 cycles per day: bin 0
    is in no band, bins 1 to 9 are in "> 1 year", bin 10 alone is in
    "~ 1 year", bins 11 to 36 are in "100 days - 1 year", bins 37 to 364
    in "10 days - 100 days", and bins from 366 on in "< 10 days". *)
Theorem bands_on_ten_year_axis (k : nat) :
  (k = 0 → bands_containing (inject_Z (Z.of_nat k) / 3650) = []) ∧
  (1 ≤ k ≤ 9 → bands_containing (inject_Z (Z.of_nat k) / 3650) = ["> 1 year"]) ∧
  (k = 10 → bands_containing (inject_Z (Z.of_nat k) / 3650) = ["~ 1 year"]) ∧
  (11 ≤ k ≤ 36 →
   bands_containing (inject_Z (Z.of_nat k) / 3650) = ["100 days - 1 year"]) ∧
  (37 ≤ k ≤ 364 →
   bands_containing (inject_Z (Z.of_nat k) / 3650) = ["10 days - 100 days"]) ∧
  (366 ≤ k → bands_containing (inject_Z (Z.of_nat k) / 3650) = ["< 10 days"]).
Proof.
  destruct (bands_containing_table (inject_Z (Z.of_nat k) / 3650))
    as (T1&T2&T3&T4&T5&T6&T7&T8&T9&T10).
  split; [intros Hk; apply T1; bin_bounds|].
  split; [intros Hk; apply T2; bin_bounds|].
  split; [intros Hk; apply T4; bin_bounds|].
  split; [intros Hk; apply T6; bin_bounds|].
  split; [intros Hk; apply T8; bin_bounds|].
  intros Hk; apply T10; bin_bounds.
Qed.
